(** * runbalfinder_hp.py: batch driver around [desibalfinder]

    A shallow embedding of [bin/runbalfinder_hp.py] (baltools).  The script
    parses its command line, derives an input root and an output root,
    discovers the healpix directories below the input root, creates the
    mirrored output directories, runs the external BAL finder once per
    selected healpix and finally prints the healpix whose run raised.

    The operating system and the external routine are kept abstract (class
    [OS]); the script itself is written in a small state-and-exception monad
    whose state carries the world and the trace of observable events. *)

From Stdlib Require Import String Ascii List Bool Arith ZArith Lia.
Import ListNotations.
Local Open Scope list_scope.
Local Open Scope string_scope.

(** * Part I: the program *)

(** ** Python strings *)

Module PyStr.

(** A string is a sequence of bytes ([ascii]).  Python counts characters:
    the lengths, indices and slices below are those of Python on ASCII text,
    which healpix numbers and the paths of a release are; on other text they
    count the bytes of its encoding. *)

(** [s.startswith(p)] *)
Definition startswith (p s : string) : bool := String.prefix p s.

(** [s[:n]] for [n >= 0] (shorter strings are returned whole). *)
Fixpoint take (n : nat) (s : string) : string :=
  match n, s with
  | S n', String c s' => String c (take n' s')
  | _, _ => EmptyString
  end.

(** [s[n:]] for [n >= 0]. *)
Fixpoint drop (n : nat) (s : string) : string :=
  match n, s with
  | S n', String _ s' => drop n' s'
  | _, _ => s
  end.

(** [s.endswith(p)] *)
Definition endswith (p s : string) : bool :=
  (String.length p <=? String.length s)%nat
  && String.eqb (drop (String.length s - String.length p) s) p.

(** [s.rfind(c)] for a one-character needle: the highest index holding
    [c], or [-1]. *)
Fixpoint rfind_from (c : ascii) (s : string) (i last : Z) : Z :=
  match s with
  | EmptyString => last
  | String a s' =>
      rfind_from c s' (i + 1)%Z (if Ascii.eqb a c then i else last)
  end.

Definition rfind (c : ascii) (s : string) : Z := rfind_from c s 0%Z (-1)%Z.

(** [s.replace(old, new)] for a non-empty [old]: the occurrences of [old]
    are replaced from left to right, without overlap.  [skip] counts the
    characters of an occurrence that are still to be dropped. *)
Fixpoint replace_go (old new : string) (skip : nat) (s : string) : string :=
  match s with
  | EmptyString => EmptyString
  | String c s' =>
      match skip with
      | S k => replace_go old new k s'
      | O =>
          if String.prefix old s
          then new ++ replace_go old new (String.length old - 1) s'
          else String c (replace_go old new 0 s')
      end
  end.

Definition replace (old new s : string) : string := replace_go old new 0 s.

(** [sep.join(parts)] *)
Definition join (sep : string) (parts : list string) : string :=
  String.concat sep parts.

(** [bool(s)]: a string is true exactly when it is not empty. *)
Definition bool_of_str (s : string) : bool := negb (String.eqb s EmptyString).

(** *** [repr] of a string, and [str] of a list of strings *)

Definition hex_digit (n : nat) : ascii :=
  match n with
  | 0 => "0" | 1 => "1" | 2 => "2" | 3 => "3" | 4 => "4" | 5 => "5"
  | 6 => "6" | 7 => "7" | 8 => "8" | 9 => "9" | 10 => "a" | 11 => "b"
  | 12 => "c" | 13 => "d" | 14 => "e" | _ => "f"
  end%char.

Fixpoint contains_char (c : ascii) (s : string) : bool :=
  match s with
  | EmptyString => false
  | String a s' => Ascii.eqb a c || contains_char c s'
  end.

(** The quote [repr] chooses: a double quote when the string holds a
    single quote and no double quote, a single quote otherwise. *)
Definition dquote : ascii := "034"%char.

Definition repr_quote (s : string) : ascii :=
  if contains_char "'"%char s && negb (contains_char dquote s)
  then dquote else "'"%char.

(** One character of [repr]: the quote and the backslash are escaped,
    tab, newline and carriage return get their letter, the other ASCII
    control characters are written [\xhh]; bytes from 128 on are kept, as
    Python keeps the printable characters of UTF-8 text (it escapes the
    others, which this model does not follow). *)
Definition repr_char (q c : ascii) : string :=
  let n := nat_of_ascii c in
  if Ascii.eqb c q || Ascii.eqb c "\"%char then String "\"%char (String c EmptyString)
  else if (n =? 9)%nat then "\t"
  else if (n =? 10)%nat then "\n"
  else if (n =? 13)%nat then "\r"
  else if (n <? 32)%nat || (n =? 127)%nat
       then String "\"%char (String "x"%char
              (String (hex_digit (n / 16)) (String (hex_digit (n mod 16)) EmptyString)))
  else String c EmptyString.

Fixpoint repr_body (q : ascii) (s : string) : string :=
  match s with
  | EmptyString => EmptyString
  | String c s' => repr_char q c ++ repr_body q s'
  end.

Definition repr (s : string) : string :=
  let q := repr_quote s in
  String q (repr_body q s ++ String q EmptyString).

(** [str(l)] for a list [l] of strings. *)
Definition str_of_list (l : list string) : string :=
  "[" ++ join ", " (map repr l) ++ "]".

End PyStr.

(** ** [os.path.join] (posixpath) *)

(** One step of [posixpath.join]: an absolute component replaces what was
    joined so far; otherwise it is appended, with a separator unless the
    path is empty or already ends with one. *)
Definition join_step (path b : string) : string :=
  if PyStr.startswith "/" b then b
  else if String.eqb path EmptyString || PyStr.endswith "/" path then path ++ b
  else path ++ "/" ++ b.

Definition os_path_join (a : string) (p : list string) : string :=
  fold_left join_step p a.

(** The first join: a separator is added unless the head is empty or ends
    with one. *)
Definition with_sep (head : string) : string :=
  if String.eqb head EmptyString || PyStr.endswith "/" head then head
  else (head ++ "/")%string.

(** ** The command line (argparse) *)

(** [args], the namespace returned by [parser.parse_args()].  [--outdir] is
    declared [required = True], so a parsed namespace holds a string there;
    [--healpix] keeps its default [None] when the option is absent. *)
Record namespace := mk_namespace {
  args_healpix : option (list string);
  args_release : string;
  args_survey : string;
  args_moon : string;
  args_outdir : string;
  args_clobber : bool;
  args_verbose : bool
}.

Module Argparse.

(** The destinations of the seven [add_argument] calls, and of the
    [-h/--help] option every parser has. *)
Inductive dest :=
| d_help | d_healpix | d_release | d_survey | d_moon | d_outdir
| d_clobber | d_verbose.

Definition dest_eqb (a b : dest) : bool :=
  match a, b with
  | d_help, d_help | d_healpix, d_healpix | d_release, d_release
  | d_survey, d_survey | d_moon, d_moon | d_outdir, d_outdir
  | d_clobber, d_clobber | d_verbose, d_verbose => true
  | _, _ => false
  end.

Definition option_strings : list (string * dest) :=
  [ ("-h", d_help); ("--help", d_help);
    ("-hp", d_healpix); ("--healpix", d_healpix);
    ("-r", d_release); ("--release", d_release);
    ("-s", d_survey); ("--survey", d_survey);
    ("-m", d_moon); ("--moon", d_moon);
    ("-o", d_outdir); ("--outdir", d_outdir);
    ("-c", d_clobber); ("--clobber", d_clobber);
    ("-v", d_verbose); ("--verbose", d_verbose) ].

Fixpoint lookup (t : string) (tbl : list (string * dest)) : option dest :=
  match tbl with
  | [] => None
  | (o, d) :: tbl' => if String.eqb t o then Some d else lookup t tbl'
  end.

(** How argparse reads one token: a registered option string is an option
    ([TokO]); the empty string, a lone dash and every token that does not
    start with a dash are arguments ([TokA]).  The other tokens that
    start with a dash (abbreviated options, [--opt=value], [-cVALUE],
    [--], negative numbers) are left out of this model ([TokOther]). *)
Inductive tokclass := TokO (d : dest) | TokA | TokOther.

Definition classify (t : string) : tokclass :=
  match lookup t option_strings with
  | Some d => TokO d
  | None =>
      if PyStr.startswith "-" t && (1 <? String.length t)%nat
      then TokOther else TokA
  end.

Definition supported (t : string) : bool :=
  match classify t with TokOther => false | _ => true end.

Inductive parse_result :=
| Parsed (ns : namespace)
| ArgExit (status : Z).

(** The option occurrences met so far, oldest first, each with the
    argument strings it consumed. *)
Definition actions := list (dest * list string).

Fixpoint values_of (d : dest) (acts : actions) : option (list string) :=
  match acts with
  | [] => None
  | (d', vs) :: acts' =>
      match values_of d acts' with
      | Some later => Some later
      | None => if dest_eqb d d' then Some vs else None
      end
  end.

Definition value_of (d : dest) (acts : actions) : option string :=
  match values_of d acts with
  | Some (v :: _) => Some v
  | _ => None
  end.

(** [type = str, default = dflt] *)
Definition str_arg (d : dest) (dflt : string) (acts : actions) : string :=
  match value_of d acts with Some v => v | None => dflt end.

(** [type = bool, default = dflt]: the argument string goes through
    [bool(...)], the default is used as it is. *)
Definition bool_arg (d : dest) (dflt : bool) (acts : actions) : bool :=
  match value_of d acts with Some v => PyStr.bool_of_str v | None => dflt end.

(** The end of parsing: [--outdir] is required, and this parser has no
    positional argument, so a stray argument is an error (status 2). *)
Definition finish (acts : actions) (extras : bool) : parse_result :=
  match value_of d_outdir acts with
  | None => ArgExit 2
  | Some o =>
      if extras then ArgExit 2
      else Parsed {|
        args_healpix := values_of d_healpix acts;
        args_release := str_arg d_release "everest" acts;
        args_survey := str_arg d_survey "main" acts;
        args_moon := str_arg d_moon "dark" acts;
        args_outdir := o;
        args_clobber := bool_arg d_clobber false acts;
        args_verbose := bool_arg d_verbose false acts |}
  end.

(** What the option read last still waits for: nothing, exactly one
    argument ([nargs = None]), or any number of them ([nargs = '*']). *)
Inductive mode := Idle | Expect (d : dest) | Gather (vals : list string).

Definition flush (m : mode) (acts : actions) : actions :=
  match m with
  | Gather vals => (acts ++ [(d_healpix, vals)])%list
  | _ => acts
  end.

Fixpoint scan (toks : list string) (m : mode) (acts : actions)
    (extras : bool) : parse_result :=
  match toks with
  | [] =>
      match m with
      | Expect _ => ArgExit 2
      | _ => finish (flush m acts) extras
      end
  | t :: rest =>
      match classify t, m with
      | TokOther, _ => ArgExit 2
      | TokA, Idle => scan rest Idle acts true
      | TokA, Expect d => scan rest Idle (acts ++ [(d, [t])])%list extras
      | TokA, Gather vals => scan rest (Gather (vals ++ [t])%list) acts extras
      | TokO _, Expect _ => ArgExit 2
      | TokO d_help, _ => ArgExit 0
      | TokO d_healpix, _ => scan rest (Gather []) (flush m acts) extras
      | TokO d, _ => scan rest (Expect d) (flush m acts) extras
      end
  end.

(** [parser.parse_args()] on [sys.argv[1:]]; [None] when a token is
    outside the modelled fragment. *)
Definition parse_args (argv : list string) : option parse_result :=
  if forallb supported argv then Some (scan argv Idle [] false) else None.

(** What argparse writes itself before it ends the process: the help on
    stdout for [-h] (status 0), the usage line and an error message on
    stderr for a command line it refuses (status 2).  The text holds the
    name the program was started under and is not modelled. *)
Inductive notice := HelpOnStdout | UsageAndErrorOnStderr.

Definition notice_of (status : Z) : notice :=
  if (status =? 0)%Z then HelpOnStdout else UsageAndErrorOnStderr.

End Argparse.

(** ** The value of [--clobber] *)

Definition is_clobber (t : string) : bool :=
  String.eqb t "-c" || String.eqb t "--clobber".

(** The strings that follow [-c] or [--clobber] on a command line, in
    order. *)
Fixpoint clobber_values (argv : list string) : list string :=
  match argv with
  | [] => []
  | t :: rest =>
      match rest with
      | v :: _ => if is_clobber t then v :: clobber_values rest
                  else clobber_values rest
      | [] => []
      end
  end.

Definition first_of (toks : list string) : list string :=
  match toks with v :: _ => [v] | [] => [] end.

(** The values of [--clobber] still to come, seen from the middle of
    [Argparse.scan]. *)
Definition pending (m : Argparse.mode) (toks : list string) : list string :=
  match m with
  | Argparse.Expect d =>
      if Argparse.dest_eqb Argparse.d_clobber d
      then (first_of toks ++ clobber_values toks)%list
      else clobber_values toks
  | _ => clobber_values toks
  end.

(** The last value wins. *)
Definition last_wins (vs : list string) (b : bool) : bool :=
  fold_left (fun _ v => PyStr.bool_of_str v) vs b.

(** ** The process environment *)

Definition environ := list (string * string).

(** [os.getenv(k)] *)
Fixpoint getenv (k : string) (env : environ) : option string :=
  match env with
  | [] => None
  | (k', v) :: env' => if String.eqb k k' then Some v else getenv k env'
  end.

(** [os.environ[k] = v] *)
Definition setenv (k v : string) (env : environ) : environ := (k, v) :: env.

(** ** Exceptions, outcomes and events *)

(** A raised exception: the name of its class and its message. *)
Record exc := mk_exc { exc_class : string; exc_msg : string }.

(** [str(cls)] for an exception class. *)
Definition str_of_class (cls : string) : string := "<class '" ++ cls ++ "'>".

Inductive outcome (A : Type) :=
| Ok (a : A)
| Raise (e : exc)         (* an exception is propagating *)
| Exit (status : Z).      (* [exit(status)]: SystemExit is propagating *)
Arguments Ok {A} a.
Arguments Raise {A} e.
Arguments Exit {A} status.

(** The status the interpreter ends with: 0 after the last statement, the
    argument of [exit], and 1 after an exception nobody caught. *)
Definition exit_status {A} (o : outcome A) : Z :=
  match o with
  | Ok _ => 0
  | Exit n => n
  | Raise _ => 1
  end.

(** The keyword arguments of one call of [db.desibalfinder]. *)
Record call_args := mk_call {
  c_coaddfile : string;
  c_altbaldir : string;
  c_overwrite : bool;
  c_verbose : bool;
  c_release : string
}.

(** What a run does that can be observed from outside.  [EvCall] also
    records the loop variable [healpix] of the iteration that made the call
    (it is not passed to the routine) and what the call raised. *)
Inductive event :=
| EvPrint (line : string)
| EvMakedirs (direct : string) (raised : option exc)
| EvGlob (pattern : string) (found : list string)
| EvCall (healpix : string) (c : call_args) (raised : option exc).

(** ** The operating system and the external routine *)

Class OS (W : Type) := {
  os_path_isdir : W -> string -> bool;
  os_path_isfile : W -> string -> bool;
  os_makedirs : W -> string -> W * option exc;
  glob : W -> string -> list string;
  desibalfinder : W -> call_args -> W * option exc
}.

(** ** The script *)

Section Script.

Context {W : Type} {os : OS W}.

Record state := mk_state { world : W; trace : list event }.

Definition M (A : Type) : Type := state -> outcome A * state.

Definition ret {A} (a : A) : M A := fun st => (Ok a, st).

Definition bind {A B} (c : M A) (k : A -> M B) : M B :=
  fun st =>
    match c st with
    | (Ok a, st') => k a st'
    | (Raise e, st') => (Raise e, st')
    | (Exit n, st') => (Exit n, st')
    end.

Definition raise {A} (e : exc) : M A := fun st => (Raise e, st).

(** [exit(n)] *)
Definition exit {A} (n : Z) : M A := fun st => (Exit n, st).

Definition emit (ev : event) : M unit :=
  fun st => (Ok tt, mk_state (world st) (trace st ++ [ev])%list).

(** [try: c  except cls: h] *)
Definition try_except {A} (c : M A) (cls : string) (h : M A) : M A :=
  fun st =>
    match c st with
    | (Raise e, st') =>
        if String.eqb (exc_class e) cls then h st' else (Raise e, st')
    | r => r
    end.

(** [try: c  except: h]; the handler receives [sys.exc_info()[0]].  A bare
    [except] also catches SystemExit. *)
Definition try_except_all {A} (c : M A) (h : string -> M A) : M A :=
  fun st =>
    match c st with
    | (Ok a, st') => (Ok a, st')
    | (Raise e, st') => h (exc_class e) st'
    | (Exit _, st') => h "SystemExit" st'
    end.

(** [for x in l: body], threading the variables the body assigns. *)
Fixpoint for_each {A V} (l : list A) (body : A -> V -> M V) (v : V) : M V :=
  match l with
  | [] => ret v
  | x :: l' => bind (body x v) (for_each l' body)
  end.

End Script.

Arguments state : clear implicits.
Arguments M : clear implicits.

Declare Scope py_scope.
Delimit Scope py_scope with py.
Notation "x <- c ;; k" := (bind c (fun x => k))
  (at level 61, c at next level, right associativity) : py_scope.
Notation "c ;; k" := (bind c (fun _ => k))
  (at level 61, right associativity) : py_scope.

Section Run.

Context {W : Type} {os : OS W}.
Local Open Scope py_scope.

(** *** Primitive statements *)

(** [print(a, b, ...)]: the arguments, separated by one space. *)
Definition print (parts : list string) : M W unit :=
  emit (EvPrint (PyStr.join " " parts)).

Definition isdir (direct : string) : M W bool :=
  fun st => (Ok (os_path_isdir (world st) direct), st).

Definition isfile (path : string) : M W bool :=
  fun st => (Ok (os_path_isfile (world st) path), st).

Definition makedirs (direct : string) : M W unit :=
  fun st =>
    let (w', r) := os_makedirs (world st) direct in
    let st' := mk_state w' (trace st ++ [EvMakedirs direct r])%list in
    match r with
    | None => (Ok tt, st')
    | Some e => (Raise e, st')
    end.

Definition call_desibalfinder (healpix : string) (c : call_args) : M W unit :=
  fun st =>
    let (w', r) := desibalfinder (world st) c in
    let st' := mk_state w' (trace st ++ [EvCall healpix c r])%list in
    match r with
    | None => (Ok tt, st')
    | Some e => (Raise e, st')
    end.

(** *** Lines 30-38 *)

Definition debug : bool := true.

Definition pmmkdir (direct : string) : M W unit :=
  d <- isdir direct ;;
  if negb d then
    try_except (makedirs direct) "PermissionError"
      (print ["Error: no permission to make directory "; direct] ;;
       exit 1)
  else ret tt.

(** *** Lines 40-82: environment, arguments and the two roots *)

(** Line 40, executed before the command line is parsed. *)
Definition startup_env (env : environ) : environ :=
  setenv "DESI_SPECTRO_REDUX" "/global/cfs/cdirs/desi/spectro/redux" env.

(** Lines 68-69 *)
Definition apply_debug (args : namespace) : namespace :=
  if debug then
    mk_namespace (args_healpix args) (args_release args) (args_survey args)
      (args_moon args) (args_outdir args) (args_clobber args) true
  else args.

(** Line 74; [os.path.join] refuses [None]. *)
Definition compute_dataroot (env : environ) (args : namespace) : M W string :=
  match getenv "DESI_SPECTRO_REDUX" env with
  | Some base =>
      ret (os_path_join base
             [args_release args; "healpix"; args_survey args; args_moon args])
  | None =>
      raise (mk_exc "TypeError"
               "expected str, bytes or os.PathLike object, not NoneType")
  end.

(** Line 82 *)
Definition compute_outroot (args : namespace) : string :=
  os_path_join (args_outdir args)
    [args_release args; "healpix"; args_survey args; args_moon args].

(** *** Lines 88-100: the available and the selected healpix *)

(** [healpixdir[healpixdir.rfind('/')+1::]] *)
Definition healpix_of_dir (healpixdir : string) : string :=
  PyStr.drop (Z.to_nat (PyStr.rfind "/" healpixdir + 1)) healpixdir.

Definition discover (dataroot : string) : M W (list string) :=
  fun st =>
    let pattern := dataroot ++ "/*/*" in
    let healpixdirs := glob (world st) pattern in
    (Ok (map healpix_of_dir healpixdirs),
     mk_state (world st) (trace st ++ [EvGlob pattern healpixdirs])%list).

(** [x in l] for a list of strings *)
Definition py_in (x : string) (l : list string) : bool :=
  existsb (String.eqb x) l.

(** The message of the assertion of line 98; it formats the whole list
    [inputhealpixels]. *)
Definition not_available (inputhealpixels : list string) : string :=
  "Healpix " ++ PyStr.str_of_list inputhealpixels ++ " not available".

Definition select (args : namespace) (healpixels : list string)
    : M W (list string) :=
  match args_healpix args with
  | Some inputhealpixels =>
      for_each inputhealpixels
        (fun inputhealpixel _ =>
           if py_in inputhealpixel healpixels then ret tt
           else raise (mk_exc "AssertionError" (not_available inputhealpixels)))
        tt ;;
      ret inputhealpixels
  | None => ret healpixels
  end.

(** *** Lines 103-105: the output directories

    The loop returns the binding of its variable [inputhealpix], which
    the statements after the loop still see: the last element, or no
    binding when the list is empty. *)
Definition scaffold (outroot : string) (inputhealpixels : list string)
    : M W (option string) :=
  for_each inputhealpixels
    (fun inputhealpix _ =>
       let healpixdir :=
         os_path_join outroot [PyStr.take 3 inputhealpix; inputhealpix] in
       pmmkdir healpixdir ;;
       ret (Some inputhealpix))
    None.

(** *** Lines 111-135: one run of the finder per healpix *)

Record failures := mk_failures {
  issuehealpixels : list string;
  errortypes : list string
}.

Definition coaddfilename (args : namespace) (healpix : string) : string :=
  "coadd-" ++ args_survey args ++ "-" ++ args_moon args ++ "-" ++ healpix
  ++ ".fits".

Definition balfilename (args : namespace) (healpix : string) : string :=
  PyStr.replace "coadd-" "baltable-" (coaddfilename args healpix).

(** Lines 118-119; both read [inputhealpix], the variable of the loop of
    line 103. *)
Definition indir (dataroot inputhealpix : string) : string :=
  os_path_join dataroot [PyStr.take 3 inputhealpix; inputhealpix].

Definition outdir (outroot inputhealpix : string) : string :=
  os_path_join outroot [PyStr.take 3 inputhealpix; inputhealpix].

Definition coaddfile (args : namespace) (dataroot inputhealpix healpix : string)
    : string :=
  os_path_join (indir dataroot inputhealpix) [coaddfilename args healpix].

Definition balfile (args : namespace) (outroot inputhealpix healpix : string)
    : string :=
  os_path_join (outdir outroot inputhealpix) [balfilename args healpix].

Definition the_call (args : namespace) (dataroot outroot inputhealpix healpix : string)
    : call_args :=
  {| c_coaddfile := coaddfile args dataroot inputhealpix healpix;
     c_altbaldir := outdir outroot inputhealpix;
     c_overwrite := args_clobber args;
     c_verbose := args_verbose args;
     c_release := args_release args |}.

Definition process (args : namespace) (dataroot outroot : string)
    (inputhealpix : option string) (healpix : string) (f : failures)
    : M W failures :=
  match inputhealpix with
  | None => raise (mk_exc "NameError" "name 'inputhealpix' is not defined")
  | Some inputhealpix =>
      (if args_verbose args then
         print ["Coadd file: "; coaddfile args dataroot inputhealpix healpix] ;;
         print ["BAL file: "; balfile args outroot inputhealpix healpix]
       else ret tt) ;;
      present <- isfile (balfile args outroot inputhealpix healpix) ;;
      if negb present || args_clobber args then
        try_except_all
          (call_desibalfinder healpix
             (the_call args dataroot outroot inputhealpix healpix) ;;
           ret f)
          (fun errortype =>
             print ["An error occured at healpix " ++ healpix
                    ++ ". Adding healpix to issuehealpixels list."] ;;
             ret (mk_failures (issuehealpixels f ++ [healpix])%list
                              (errortypes f ++ [errortype])%list))
      else ret f
  end.

Definition process_all (args : namespace) (dataroot outroot : string)
    (inputhealpix : option string) (inputhealpixels : list string)
    : M W failures :=
  for_each inputhealpixels (process args dataroot outroot inputhealpix)
    (mk_failures [] []).

(** *** Lines 137-139: the summary *)

Definition summary_line (healpix errortype : string) : string :=
  healpix ++ " : " ++ str_of_class errortype.

Definition summary (f : failures) : M W unit :=
  print ["Healpix with errors and error types: "] ;;
  for_each (seq 0 (List.length (issuehealpixels f)))
    (fun i _ =>
       match nth_error (issuehealpixels f) i, nth_error (errortypes f) i with
       | Some h, Some t => print [summary_line h t]
       | _, _ => raise (mk_exc "IndexError" "list index out of range")
       end)
    tt.

(** *** The whole script, from a parsed command line *)

Definition run (env0 : environ) (parsed : namespace) : M W unit :=
  let env := startup_env env0 in
  let args := apply_debug parsed in
  dataroot <- compute_dataroot env args ;;
  let outroot := compute_outroot args in
  pmmkdir outroot ;;
  healpixels <- discover dataroot ;;
  inputhealpixels <- select args healpixels ;;
  inputhealpix <- scaffold outroot inputhealpixels ;;
  f <- process_all args dataroot outroot inputhealpix inputhealpixels ;;
  summary f.

(** The script on a command line: what argparse wrote itself at line 66, if
    it ended the process there, and the statements that run from there on;
    [None] when argparse is outside the modelled fragment. *)
Definition script (env0 : environ) (argv : list string)
    : option (option Argparse.notice * M W unit) :=
  match Argparse.parse_args argv with
  | None => None
  | Some (Argparse.ArgExit n) => Some (Some (Argparse.notice_of n), exit n)
  | Some (Argparse.Parsed parsed) => Some (None, run env0 parsed)
  end.

(** *** Lines 40-105 on their own: everything before the first iteration *)

(** The statements of [run] up to the loop of line 103, with the three
    variables the rest of the script reads. *)
Definition setup (env0 : environ) (parsed : namespace)
    : M W (string * list string * option string) :=
  let env := startup_env env0 in
  let args := apply_debug parsed in
  dataroot <- compute_dataroot env args ;;
  let outroot := compute_outroot args in
  pmmkdir outroot ;;
  healpixels <- discover dataroot ;;
  inputhealpixels <- select args healpixels ;;
  inputhealpix <- scaffold outroot inputhealpixels ;;
  ret (dataroot, inputhealpixels, inputhealpix).

End Run.

(** ** Reading a trace *)

Definition is_call (ev : event) : bool :=
  match ev with EvCall _ _ _ => true | _ => false end.

(** The failures a trace holds: the healpix of each call that raised, with
    the class of what it raised, oldest first. *)
Definition captured (evs : list event) : list (string * string) :=
  flat_map (fun ev =>
              match ev with
              | EvCall h _ (Some e) => [(h, exc_class e)]
              | _ => []
              end) evs.

(** The calls made for healpix [h], with what each raised. *)
Definition calls_for (h : string) (evs : list event)
    : list (call_args * option exc) :=
  flat_map (fun ev =>
              match ev with
              | EvCall h' c r => if String.eqb h' h then [(c, r)] else []
              | _ => []
              end) evs.

(** The entries of a list of failures that name healpix [h]. *)
Definition entries_for (h : string) (l : list (string * string))
    : list (string * string) :=
  filter (fun p => String.eqb (fst p) h) l.

(** What the summary prints for a list of failures. *)
Definition summary_events (l : list (string * string)) : list event :=
  EvPrint "Healpix with errors and error types: "
  :: map (fun p => EvPrint (summary_line (fst p) (snd p))) l.

(** The binding of [inputhealpix] the loop of line 103 leaves behind. *)
Definition leaked (inputhealpixels : list string) : option string :=
  fold_left (fun _ x => Some x) inputhealpixels None.

(** The lines a trace prints. *)
Definition printed (evs : list event) : list string :=
  flat_map (fun ev => match ev with EvPrint l => [l] | _ => [] end) evs.

Definition is_coadd_print (ev : event) : bool :=
  match ev with
  | EvPrint l => PyStr.startswith "Coadd file: " l
  | _ => false
  end.

(** The patterns [glob] was called on. *)
Definition patterns (evs : list event) : list string :=
  flat_map (fun ev => match ev with EvGlob p _ => [p] | _ => [] end) evs.

Definition added {W : Type} (st st' : state W) : list event :=
  skipn (List.length (trace st)) (trace st').

(** ** One iteration of the loop of line 114, as a function of the world *)

Section Iteration.

Context {W : Type} {os : OS W}.

Variables (args : namespace) (dataroot outroot inputhealpix : string).

(** The two lines printed when [args.verbose] holds. *)
Definition path_prints (healpix : string) : list event :=
  if args_verbose args then
    [EvPrint (PyStr.join " "
                ["Coadd file: "; coaddfile args dataroot inputhealpix healpix]);
     EvPrint (PyStr.join " "
                ["BAL file: "; balfile args outroot inputhealpix healpix])]
  else [].

Definition error_print (healpix : string) : event :=
  EvPrint (PyStr.join " "
             ["An error occured at healpix " ++ healpix
              ++ ". Adding healpix to issuehealpixels list."]).

(** The world after the iteration for [healpix], and the events of the
    iteration. *)
Definition step (healpix : string) (w : W) : W * list event :=
  let c := the_call args dataroot outroot inputhealpix healpix in
  if negb (os_path_isfile w (balfile args outroot inputhealpix healpix))
     || args_clobber args
  then
    match desibalfinder w c with
    | (w', None) => (w', path_prints healpix ++ [EvCall healpix c None])%list
    | (w', Some e) =>
        (w', path_prints healpix
             ++ [EvCall healpix c (Some e); error_print healpix])%list
    end
  else (w, path_prints healpix).

Fixpoint steps (healpixels : list string) (w : W) : W * list event :=
  match healpixels with
  | [] => (w, [])
  | h :: rest =>
      let (w1, evs1) := step h w in
      let (w2, evs2) := steps rest w1 in
      (w2, evs1 ++ evs2)%list
  end.

(** The two lists after the failures [l] were appended one by one. *)
Definition add_failures (f : failures) (l : list (string * string)) : failures :=
  mk_failures (issuehealpixels f ++ map fst l) (errortypes f ++ map snd l).

(** An iteration only prints and calls the finder, and every call is
    [the_call] of its healpix. *)
Definition call_shape (ev : event) : Prop :=
  match ev with
  | EvCall h c _ => c = the_call args dataroot outroot inputhealpix h
  | EvPrint _ => True
  | _ => False
  end.

End Iteration.

(** ** How the part before the loop can end *)

Section SetupSpec.

Context {W : Type} {os : OS W}.

(** [os.makedirs] did not raise. *)
Definition makedirs_ok (ev : event) : Prop :=
  match ev with EvMakedirs _ (Some _) => False | _ => True end.

(** The input root every run uses. *)
Definition the_dataroot (args : namespace) : string :=
  os_path_join "/global/cfs/cdirs/desi/spectro/redux"
    [args_release args; "healpix"; args_survey args; args_moon args].

(** The events of the part before the loop: no call of the finder, and
    [glob] only on the pattern below the input root. *)
Definition setup_event (parsed : namespace) (ev : event) : Prop :=
  match ev with
  | EvCall _ _ _ => False
  | EvGlob pattern _ =>
      pattern = (the_dataroot (apply_debug parsed) ++ "/*/*")%string
  | _ => True
  end.

Definition quiet (parsed : namespace) (evs : list event) : Prop :=
  Forall (setup_event parsed) evs /\ Forall makedirs_ok evs.

Definition permission_print (direct : string) : event :=
  EvPrint (PyStr.join " " ["Error: no permission to make directory "; direct]).

Definition refused (parsed : namespace) (evs : list event) (e : exc) : Prop :=
  exc_class e = "AssertionError"
  /\ exists l pre pattern found u,
       args_healpix parsed = Some l
       /\ exc_msg e = not_available l
       /\ evs = (pre ++ [EvGlob pattern found])%list
       /\ Forall makedirs_ok pre
       /\ In u l
       /\ ~ In u (map healpix_of_dir found).

(** How the part before the loop can end, given the events [evs] it
    added: normally, with no call made and no directory refused; by
    [exit(1)] right after a PermissionError of [os.makedirs] and its
    message; or with an exception nobody catches, which is either another
    error of [os.makedirs] or the AssertionError of line 98. *)
Definition setup_post (parsed : namespace) {A} (o : outcome A)
    (evs : list event) : Prop :=
  Forall (setup_event parsed) evs
  /\ match o with
     | Ok _ => Forall makedirs_ok evs
     | Exit n =>
         n = 1%Z
         /\ exists pre direct e,
              evs = (pre ++ [EvMakedirs direct (Some e);
                             permission_print direct])%list
              /\ Forall makedirs_ok pre
              /\ exc_class e = "PermissionError"
     | Raise e =>
         (exists pre direct,
            evs = (pre ++ [EvMakedirs direct (Some e)])%list
            /\ Forall makedirs_ok pre
            /\ exc_class e <> "PermissionError")
         \/ refused parsed evs e
     end.

Definition sat (parsed : namespace) {A} (c : M W A) : Prop :=
  forall st, exists evs,
    trace (snd (c st)) = (trace st ++ evs)%list
    /\ setup_post parsed (fst (c st)) evs.

End SetupSpec.

(** ** The events of a whole run *)

(** [glob] is only called on the pattern below the input root, and every
    call of the finder is [the_call] of its healpix, for the arguments after
    the debug override, the fixed input root and some [inputhealpix]. *)
Definition run_event (parsed : namespace) (ev : event) : Prop :=
  match ev with
  | EvGlob pattern _ =>
      pattern = (the_dataroot (apply_debug parsed) ++ "/*/*")%string
  | EvCall h c _ =>
      exists inputhealpix,
        c = the_call (apply_debug parsed) (the_dataroot (apply_debug parsed))
              (compute_outroot (apply_debug parsed)) inputhealpix h
  | _ => True
  end.

(** ** A small simulated world, for concrete runs

    Directories and files are lists of paths.  [os.makedirs] raises
    PermissionError on the paths of [denied], FileExistsError on a path that
    is a file, and creates the directory otherwise.  The finder raises what
    [failing] associates with its input file, and otherwise writes the
    catalog next to [altbaldir]. *)

Module Sim.

Record world := mk_world {
  dirs : list string;
  files : list string;
  denied : list string;
  failing : list (string * exc)
}.

Definition mem (x : string) (l : list string) : bool :=
  existsb (String.eqb x) l.

Fixpoint split_slash (s cur : string) : list string :=
  match s with
  | EmptyString => [cur]
  | String c s' =>
      if Ascii.eqb c "/" then cur :: split_slash s' EmptyString
      else split_slash s' (cur ++ String c EmptyString)
  end.

Definition visible (name : string) : bool :=
  negb (String.eqb name EmptyString) && negb (PyStr.startswith "." name).

(** Does [path] match [root/*/*]? *)
Definition two_below (root path : string) : bool :=
  PyStr.startswith (root ++ "/") path
  && match split_slash (PyStr.drop (String.length root + 1) path) EmptyString with
     | [a; b] => visible a && visible b
     | _ => false
     end.

Definition sim_glob (w : world) (pattern : string) : list string :=
  if PyStr.endswith "/*/*" pattern then
    let root := PyStr.take (String.length pattern - 4) pattern in
    filter (two_below root) (dirs w ++ files w)%list
  else [].

Definition sim_makedirs (w : world) (direct : string) : world * option exc :=
  if mem direct (denied w) then
    (w, Some (mk_exc "PermissionError" direct))
  else if mem direct (files w) then
    (w, Some (mk_exc "FileExistsError" direct))
  else
    (mk_world (dirs w ++ [direct])%list (files w) (denied w) (failing w), None).

Fixpoint assoc (k : string) (l : list (string * exc)) : option exc :=
  match l with
  | [] => None
  | (k', e) :: l' => if String.eqb k k' then Some e else assoc k l'
  end.

Definition basename (path : string) : string :=
  PyStr.drop (Z.to_nat (PyStr.rfind "/" path + 1)) path.

Definition sim_finder (w : world) (c : call_args) : world * option exc :=
  match assoc (c_coaddfile c) (failing w) with
  | Some e => (w, Some e)
  | None =>
      let catalog :=
        os_path_join (c_altbaldir c)
          [PyStr.replace "coadd-" "baltable-" (basename (c_coaddfile c))] in
      (mk_world (dirs w) (files w ++ [catalog])%list (denied w) (failing w), None)
  end.

#[global] Instance sim_os : OS world := {|
  os_path_isdir := fun w d => mem d (dirs w);
  os_path_isfile := fun w p => mem p (files w);
  os_makedirs := sim_makedirs;
  glob := sim_glob;
  desibalfinder := sim_finder
|}.

(** The release tree used in the examples: healpix 100 and 200. *)
Definition redux : string := "/global/cfs/cdirs/desi/spectro/redux".

Definition dark : string := redux ++ "/everest/healpix/main/dark".

Definition two_healpix : world :=
  mk_world [dark ++ "/100/100"; dark ++ "/200/200"] [] [] [].

Definition start (w : world) : state world := mk_state w [].

End Sim.

(** The default release, survey and moon, output below [out], and the
    [--verbose] option absent. *)
Definition request (healpix : option (list string)) (clobber : bool) : namespace :=
  mk_namespace healpix "everest" "main" "dark" "out" clobber false.

(** ** More ways to read strings and traces *)

(** [s] holds no path separator. *)
Definition slash_free (s : string) : bool := negb (PyStr.contains_char "/" s).

(** [old in s]: [old] starts at some index of [s]. *)
Fixpoint occurs (old s : string) : bool :=
  String.prefix old s
  || match s with
     | EmptyString => false
     | String _ s' => occurs old s'
     end.

(** The healpix of the calls of a trace, oldest first. *)
Definition called (evs : list event) : list string :=
  flat_map (fun ev => match ev with EvCall h _ _ => [h] | _ => [] end) evs.

(** The directories [os.makedirs] was asked for, oldest first. *)
Definition asked_dirs (evs : list event) : list string :=
  flat_map (fun ev => match ev with EvMakedirs d _ => [d] | _ => [] end) evs.

(** The output directory the loop of line 103 makes for a healpix. *)
Definition healpixdir (outroot inputhealpix : string) : string :=
  os_path_join outroot [PyStr.take 3 inputhealpix; inputhealpix].

(** The elements of [l] whose flag in [keep] is set, in order. *)
Definition masked {A} (l : list A) (keep : list bool) : list A :=
  map fst (filter snd (combine l keep)).

(** The event of a call of [os.makedirs]. *)
Definition silent (ev : event) : Prop :=
  match ev with
  | EvMakedirs _ _ => True
  | _ => False
  end.

(** Is [t] an option string of destination [d]? *)
Definition is_opt (d : Argparse.dest) (t : string) : bool :=
  match Argparse.lookup t Argparse.option_strings with
  | Some d' => Argparse.dest_eqb d d'
  | None => false
  end.

(** The strings that follow an option string of [d] on a command line, in
    order. *)
Fixpoint opt_values (d : Argparse.dest) (argv : list string) : list string :=
  match argv with
  | [] => []
  | t :: rest =>
      if is_opt d t then (first_of rest ++ opt_values d rest)%list
      else opt_values d rest
  end.

(** The values of [d] still to come, seen from the middle of
    [Argparse.scan]. *)
Definition to_come (d : Argparse.dest) (m : Argparse.mode)
    (toks : list string) : list string :=
  match m with
  | Argparse.Expect d0 =>
      if Argparse.dest_eqb d d0
      then (first_of toks ++ opt_values d toks)%list
      else opt_values d toks
  | _ => opt_values d toks
  end.

(** The value an option holds after the values [vs] were stored one by
    one. *)
Definition latest (vs : list string) (v : option string) : option string :=
  fold_left (fun _ x => Some x) vs v.

(** ** How a run can fail *)

(** [os.makedirs] raised in the trace. *)
Definition makedirs_raised (evs : list event) : Prop :=
  exists direct e, In (EvMakedirs direct (Some e)) evs.

(** A healpix was requested with [--healpix] and is not among the names of
    the directories [glob] returned. *)
Definition request_missing (parsed : namespace) (evs : list event) : Prop :=
  exists l pattern found u,
    args_healpix parsed = Some l
    /\ In (EvGlob pattern found) evs
    /\ In u l
    /\ ~ In u (map healpix_of_dir found).

(** * Part II: facts *)

(** ** The string and path functions on examples *)

Example take_short : PyStr.take 3 "42" = "42".
Proof. reflexivity. Qed.

Example take_long : PyStr.take 3 "10016" = "100".
Proof. reflexivity. Qed.

Example rfind_some : PyStr.rfind "/" "a/b/c" = 3%Z.
Proof. reflexivity. Qed.

Example rfind_none : PyStr.rfind "/" "abc" = (-1)%Z.
Proof. reflexivity. Qed.

Example replace_coadd :
  PyStr.replace "coadd-" "baltable-" "coadd-main-dark-100.fits"
  = "baltable-main-dark-100.fits".
Proof. reflexivity. Qed.

Example replace_every_occurrence :
  PyStr.replace "coadd-" "baltable-" "coadd-coadd-x-dark-1.fits"
  = "baltable-baltable-x-dark-1.fits".
Proof. reflexivity. Qed.

Example str_of_list_two :
  PyStr.str_of_list ["100"; "999"] = "['100', '999']".
Proof. reflexivity. Qed.

Example join_plain : os_path_join "out" ["everest"; "healpix"] = "out/everest/healpix".
Proof. reflexivity. Qed.

Example join_trailing_sep : os_path_join "out/" ["everest"] = "out/everest".
Proof. reflexivity. Qed.

Example join_empty_head : os_path_join EmptyString ["everest"] = "everest".
Proof. reflexivity. Qed.

Example join_absolute : os_path_join "out" ["/abs"; "x"] = "/abs/x".
Proof. reflexivity. Qed.

Example parse_defaults :
  Argparse.parse_args ["-o"; "out"]
  = Some (Argparse.Parsed (mk_namespace None "everest" "main" "dark" "out" false false)).
Proof. reflexivity. Qed.

Example parse_healpix_list :
  Argparse.parse_args ["-hp"; "100"; "200"; "-o"; "out"; "-r"; "fuji"]
  = Some (Argparse.Parsed
            (mk_namespace (Some ["100"; "200"]) "fuji" "main" "dark" "out" false false)).
Proof. reflexivity. Qed.

Example parse_missing_outdir : Argparse.parse_args ["-r"; "fuji"] = Some (Argparse.ArgExit 2).
Proof. reflexivity. Qed.

Example parse_clobber_False :
  Argparse.parse_args ["-o"; "out"; "--clobber"; "False"]
  = Some (Argparse.Parsed (mk_namespace None "everest" "main" "dark" "out" true false)).
Proof. reflexivity. Qed.

(** ** Facts about paths *)

Lemma append_assoc (a b c : string) : ((a ++ b) ++ c = a ++ (b ++ c))%string.
Proof. induction a as [|x a IH]; cbn; congruence. Qed.

Lemma append_not_empty (s t : string) :
  t <> EmptyString -> String.eqb (s ++ t) EmptyString = false.
Proof.
  intros Ht. apply String.eqb_neq. destruct s; cbn; [assumption|discriminate].
Qed.

Lemma endswith_slash_cons (c : ascii) (u : string) :
  u <> EmptyString ->
  PyStr.endswith "/" (String c u) = PyStr.endswith "/" u.
Proof.
  intros Hu. destruct u as [|d u]; [congruence|].
  unfold PyStr.endswith. cbn [String.length Nat.leb Nat.sub andb].
  rewrite Nat.sub_0_r. reflexivity.
Qed.

Lemma endswith_slash_app (s t : string) :
  t <> EmptyString -> PyStr.endswith "/" (s ++ t) = PyStr.endswith "/" t.
Proof.
  intros Ht. induction s as [|c s IH]; [reflexivity|].
  cbn [String.append]. rewrite endswith_slash_cons; [exact IH|].
  destruct s; cbn; [assumption|discriminate].
Qed.

(** Joining a relative component to a path that ends with the text [t],
    which is not empty and has no separator at its end. *)
Lemma join_step_plain (p t b : string) :
  t <> EmptyString ->
  PyStr.endswith "/" t = false ->
  PyStr.startswith "/" b = false ->
  join_step (p ++ t) b = (p ++ (t ++ "/" ++ b))%string.
Proof.
  intros Ht Hs Hb. unfold join_step.
  rewrite Hb, append_not_empty, endswith_slash_app, Hs by assumption.
  cbn [orb]. apply append_assoc.
Qed.

Lemma join_step_head (head b : string) :
  PyStr.startswith "/" b = false -> join_step head b = (with_sep head ++ b)%string.
Proof.
  intros Hb. unfold join_step, with_sep. rewrite Hb.
  destruct (String.eqb head EmptyString || PyStr.endswith "/" head);
    [reflexivity|]. now rewrite append_assoc.
Qed.

Lemma with_sep_plain (head : string) :
  head <> EmptyString -> PyStr.endswith "/" head = false ->
  with_sep head = (head ++ "/")%string.
Proof.
  intros Hh He. unfold with_sep. apply String.eqb_neq in Hh.
  now rewrite Hh, He.
Qed.

(** ** Facts about the monad and the loops *)

Section Facts.

Context {W : Type} {os : OS W}.

Lemma for_each_app {A V} (l1 l2 : list A) (body : A -> V -> M W V) (v : V)
    (st : state W) :
  for_each (l1 ++ l2) body v st
  = bind (for_each l1 body v) (for_each l2 body) st.
Proof.
  revert v st; induction l1 as [|x l1 IH]; intros v st; simpl.
  - reflexivity.
  - unfold bind in *. destruct (body x v st) as [[a|e|n] st1]; auto.
Qed.

Lemma leaked_app (l : list string) (x : string) : leaked (l ++ [x]) = Some x.
Proof. unfold leaked. rewrite fold_left_app. reflexivity. Qed.

Lemma leaked_cons (x : string) (l : list string) : leaked (x :: l) <> None.
Proof.
  destruct (exists_last (l := x :: l)) as [l' [y ->]]; [discriminate|].
  rewrite leaked_app. discriminate.
Qed.

Lemma captured_app (a b : list event) :
  captured (a ++ b) = (captured a ++ captured b)%list.
Proof. apply flat_map_app. Qed.

Lemma calls_for_app (h : string) (a b : list event) :
  calls_for h (a ++ b) = (calls_for h a ++ calls_for h b)%list.
Proof. apply flat_map_app. Qed.

Lemma entries_for_app (h : string) (a b : list (string * string)) :
  entries_for h (a ++ b) = (entries_for h a ++ entries_for h b)%list.
Proof. apply filter_app. Qed.

End Facts.

(** ** Facts about the iterations *)

Section IterationFacts.

Context {W : Type} {os : OS W}.

Variables (args : namespace) (dataroot outroot inputhealpix : string).

Local Abbreviation step1 := (step args dataroot outroot inputhealpix).
Local Abbreviation stepsN := (steps args dataroot outroot inputhealpix).
Local Abbreviation prints2 := (path_prints args dataroot outroot inputhealpix).
Local Abbreviation shape := (call_shape args dataroot outroot inputhealpix).

Lemma add_failures_nil (f : failures) : add_failures f [] = f.
Proof. destruct f; unfold add_failures; simpl. now rewrite !app_nil_r. Qed.

Lemma add_failures_app (f : failures) (a b : list (string * string)) :
  add_failures (add_failures f a) b = add_failures f (a ++ b).
Proof.
  unfold add_failures; simpl. now rewrite !map_app, !app_assoc.
Qed.

Lemma captured_path_prints (h : string) : captured (prints2 h) = [].
Proof. unfold path_prints. now destruct (args_verbose args). Qed.

Lemma process_step (healpix : string) (f : failures) (st : state W) :
  process args dataroot outroot (Some inputhealpix) healpix f st
  = (Ok (add_failures f (captured (snd (step1 healpix (world st))))),
     mk_state (fst (step1 healpix (world st)))
              (trace st ++ snd (step1 healpix (world st)))).
Proof.
  destruct st as [w tr].
  unfold process, step, path_prints, error_print, bind, isfile,
    try_except_all, call_desibalfinder, print, emit, ret.
  destruct (args_verbose args); cbv beta iota zeta delta [world trace];
    (destruct (negb (os_path_isfile w (balfile args outroot inputhealpix healpix))
               || args_clobber args);
     [ destruct (desibalfinder w (the_call args dataroot outroot inputhealpix healpix))
         as [w' [e|]] | ]);
    cbv beta iota zeta delta [world trace fst snd exc_class];
    rewrite ?captured_app; cbn [captured flat_map app];
    rewrite ?add_failures_nil, ?app_nil_r, <- ?app_assoc; reflexivity.
Qed.

Lemma process_all_steps (healpixels : list string) (f : failures) (st : state W) :
  for_each healpixels (process args dataroot outroot (Some inputhealpix)) f st
  = (Ok (add_failures f (captured (snd (stepsN healpixels (world st))))),
     mk_state (fst (stepsN healpixels (world st)))
              (trace st ++ snd (stepsN healpixels (world st)))).
Proof.
  revert f st; induction healpixels as [|h rest IH]; intros f st.
  - destruct st; simpl. unfold ret. now rewrite add_failures_nil, app_nil_r.
  - cbn [for_each steps]. unfold bind. rewrite process_step, IH.
    cbn [world trace].
    destruct (step1 h (world st)) as [w1 evs1]; cbn [fst snd].
    destruct (stepsN rest w1) as [w2 evs2]; cbn [fst snd].
    now rewrite add_failures_app, captured_app, app_assoc.
Qed.

Lemma steps_app (a b : list string) (w : W) :
  stepsN (a ++ b) w
  = (fst (stepsN b (fst (stepsN a w))),
     snd (stepsN a w) ++ snd (stepsN b (fst (stepsN a w))))%list.
Proof.
  revert w; induction a as [|h a IH]; intros w; cbn [steps app].
  - cbn [fst snd app]. now destruct (stepsN b w).
  - destruct (step1 h w) as [w1 evs1]. rewrite IH.
    destruct (stepsN a w1) as [w2 evs2]; cbn [fst snd].
    now rewrite app_assoc.
Qed.

Lemma path_prints_shape (h : string) : Forall shape (prints2 h).
Proof.
  unfold path_prints.
  destruct (args_verbose args); repeat constructor.
Qed.

Lemma step_shape (h : string) (w : W) : Forall shape (snd (step1 h w)).
Proof.
  unfold step.
  destruct (negb _ || _); [destruct (desibalfinder _ _) as [w' [e|]]|];
    cbn [snd]; rewrite ?Forall_app; repeat split;
    try apply path_prints_shape; repeat constructor.
Qed.

Lemma steps_shape (l : list string) (w : W) : Forall shape (snd (stepsN l w)).
Proof.
  revert w; induction l as [|h l IH]; intros w; cbn [steps].
  - constructor.
  - pose proof (step_shape h w) as Hs. destruct (step1 h w) as [w1 evs1].
    specialize (IH w1). destruct (stepsN l w1) as [w2 evs2]. cbn [snd] in *.
    apply Forall_app; split; assumption.
Qed.

Lemma calls_for_path_prints (h h' : string) : calls_for h (prints2 h') = [].
Proof. unfold path_prints. now destruct (args_verbose args). Qed.

(** An iteration makes at most one call, and only for its own healpix. *)
Lemma step_calls_for (h h' : string) (w : W) :
  List.length (calls_for h (snd (step1 h' w)))
  <= (if String.eqb h' h then 1 else 0).
Proof.
  unfold step.
  destruct (negb _ || _); [destruct (desibalfinder _ _) as [w' [e|]]|];
    cbn [snd]; rewrite ?calls_for_app, ?calls_for_path_prints;
    cbn [calls_for flat_map app]; destruct (String.eqb h' h); cbn; lia.
Qed.

Lemma steps_calls_for (h : string) (l : list string) (w : W) :
  List.length (calls_for h (snd (stepsN l w))) <= count_occ string_dec l h.
Proof.
  revert w; induction l as [|h' l IH]; intros w; cbn [steps].
  - cbn. lia.
  - pose proof (step_calls_for h h' w) as Hs.
    destruct (step1 h' w) as [w1 evs1]. specialize (IH w1).
    destruct (stepsN l w1) as [w2 evs2]. cbn [snd] in *.
    rewrite calls_for_app, length_app. cbn [count_occ].
    destruct (string_dec h' h) as [->|Hne].
    + rewrite String.eqb_refl in Hs. lia.
    + apply String.eqb_neq in Hne. rewrite Hne in Hs. lia.
Qed.

(** With [args.verbose] set, an iteration prints its input path once. *)
Lemma step_coadd_print (h : string) (w : W) :
  args_verbose args = true ->
  filter is_coadd_print (snd (step1 h w))
  = [EvPrint (PyStr.join " "
                ["Coadd file: "; coaddfile args dataroot inputhealpix h])].
Proof.
  intros Hv. unfold step, path_prints. rewrite Hv.
  destruct (negb _ || _); [destruct (desibalfinder _ _) as [w' [e|]]|];
    reflexivity.
Qed.

Lemma steps_coadd_prints (l : list string) (w : W) :
  args_verbose args = true ->
  filter is_coadd_print (snd (stepsN l w))
  = map (fun h => EvPrint (PyStr.join " "
                   ["Coadd file: "; coaddfile args dataroot inputhealpix h])) l.
Proof.
  intros Hv. revert w; induction l as [|h l IH]; intros w; cbn [steps].
  - reflexivity.
  - pose proof (step_coadd_print h w Hv) as Hs.
    destruct (step1 h w) as [w1 evs1]. specialize (IH w1).
    destruct (stepsN l w1) as [w2 evs2]. cbn [snd] in *.
    rewrite filter_app, Hs, IH. reflexivity.
Qed.

End IterationFacts.

(** ** Facts about failures and the summary *)

Section SummaryFacts.

Context {W : Type} {os : OS W}.

Lemma entries_of_calls (h : string) (evs : list event) :
  entries_for h (captured evs)
  = flat_map (fun cr : call_args * option exc =>
                match snd cr with
                | Some e => [(h, exc_class e)]
                | None => []
                end) (calls_for h evs).
Proof.
  induction evs as [|ev evs IH]; [reflexivity|].
  change (ev :: evs) with ([ev] ++ evs)%list.
  rewrite captured_app, calls_for_app, entries_for_app, flat_map_app, IH.
  f_equal. destruct ev as [l|d r|p fnd|h' c [e|]]; try reflexivity.
  - cbn. destruct (String.eqb h' h) eqn:E; [|reflexivity].
    apply String.eqb_eq in E. now subst.
  - cbn. now destruct (String.eqb h' h).
Qed.

Lemma in_calls_for (h : string) (c : call_args) (r : option exc)
    (evs : list event) :
  In (EvCall h c r) evs -> In (c, r) (calls_for h evs).
Proof.
  intros Hin. unfold calls_for. apply in_flat_map.
  exists (EvCall h c r). split; [assumption|].
  rewrite String.eqb_refl. now left.
Qed.

Lemma in_captured (h : string) (c : call_args) (e : exc) (evs : list event) :
  In (EvCall h c (Some e)) evs -> In (h, exc_class e) (captured evs).
Proof.
  intros Hin. unfold captured. apply in_flat_map.
  exists (EvCall h c (Some e)). split; [assumption|now left].
Qed.

(** A healpix called at most once and whose call raised has exactly one
    entry among the failures. *)
Lemma single_entry (h : string) (c : call_args) (e : exc) (evs : list event) :
  List.length (calls_for h evs) <= 1 ->
  In (EvCall h c (Some e)) evs ->
  entries_for h (captured evs) = [(h, exc_class e)].
Proof.
  intros Hlen Hin. apply in_calls_for in Hin.
  rewrite entries_of_calls.
  destruct (calls_for h evs) as [|x [|y l]]; cbn in *.
  - contradiction.
  - destruct Hin as [->|[]]. reflexivity.
  - lia.
Qed.

Lemma combine_fst_snd {A B} (l : list (A * B)) :
  combine (map fst l) (map snd l) = l.
Proof. induction l as [|[a b] l IH]; cbn; congruence. Qed.

Lemma skipn_nth_error {A} (l : list A) (k : nat) (x : A) :
  nth_error l k = Some x -> skipn k l = x :: skipn (S k) l.
Proof.
  revert k; induction l as [|y l IH]; intros [|k] H; cbn in *;
    try discriminate.
  - now inversion H.
  - now apply IH.
Qed.

(** The loop of line 138, from index [k] on. *)
Lemma summary_loop (hs ts : list string) (m k : nat) (st : state W) :
  List.length hs = List.length ts ->
  k + m = List.length hs ->
  for_each (seq k m)
    (fun i (_ : unit) =>
       match nth_error hs i, nth_error ts i with
       | Some h, Some t => print [summary_line h t]
       | _, _ => raise (mk_exc "IndexError" "list index out of range")
       end) tt st
  = (Ok tt,
     mk_state (world st)
       (trace st ++ map (fun p => EvPrint (summary_line (fst p) (snd p)))
                      (skipn k (combine hs ts)))).
Proof.
  intros Hlen. revert k st; induction m as [|m IH]; intros k st Hk.
  - cbn [seq for_each]. unfold ret.
    rewrite skipn_all2 by (rewrite length_combine; lia).
    cbn. rewrite app_nil_r. now destruct st.
  - cbn [seq for_each]. unfold bind.
    destruct (nth_error hs k) as [h|] eqn:Hh;
      [|apply nth_error_None in Hh; lia].
    destruct (nth_error ts k) as [t|] eqn:Ht;
      [|apply nth_error_None in Ht; lia].
    assert (Hc : nth_error (combine hs ts) k = Some (h, t)).
    { clear -Hh Ht. revert ts k Hh Ht.
      induction hs as [|a hs IH]; intros [|b ts] [|k] Hh Ht; cbn in *;
        try discriminate.
      - congruence.
      - now apply IH. }
    rewrite (skipn_nth_error _ _ _ Hc).
    unfold print, emit at 1. cbn [PyStr.join String.concat].
    rewrite IH by lia. cbn [world trace map fst snd].
    now rewrite <- app_assoc.
Qed.

Lemma summary_spec (f : failures) (st : state W) :
  List.length (issuehealpixels f) = List.length (errortypes f) ->
  summary f st
  = (Ok tt,
     mk_state (world st)
       (trace st
        ++ summary_events (combine (issuehealpixels f) (errortypes f)))).
Proof.
  intros Hlen. unfold summary, bind, print, emit at 1.
  rewrite summary_loop by (cbn; lia).
  cbn [world trace skipn summary_events PyStr.join String.concat].
  now rewrite <- app_assoc.
Qed.

Lemma summary_of_captured (l : list (string * string)) (st : state W) :
  summary (add_failures (mk_failures [] []) l) st
  = (Ok tt, mk_state (world st) (trace st ++ summary_events l)).
Proof.
  rewrite summary_spec; unfold add_failures; cbn.
  - now rewrite combine_fst_snd.
  - now rewrite !length_map.
Qed.

End SummaryFacts.

(** ** Facts about the part before the loop *)

Section SetupFacts.

Context {W : Type} {os : OS W}.

Lemma run_setup (env0 : environ) (parsed : namespace) (st : state W) :
  run env0 parsed st
  = match setup env0 parsed st with
    | (Ok (dataroot, inputhealpixels, inputhealpix), st1) =>
        bind (process_all (apply_debug parsed) dataroot
                (compute_outroot (apply_debug parsed))
                inputhealpix inputhealpixels)
             summary st1
    | (Raise e, st1) => (Raise e, st1)
    | (Exit n, st1) => (Exit n, st1)
    end.
Proof.
  unfold run, setup, bind at 1 2 3 4 5 7 8 9 10 11.
  destruct (compute_dataroot _ _ st) as [[dr|e|n] st1]; try reflexivity.
  destruct (pmmkdir _ st1) as [[[]|e|n] st2]; try reflexivity.
  destruct (discover dr st2) as [[hs|e|n] st3]; try reflexivity.
  destruct (select _ hs st3) as [[l|e|n] st4]; try reflexivity.
  destruct (scaffold _ l st4) as [[ih|e|n] st5]; reflexivity.
Qed.

Lemma setup_post_after (parsed : namespace) {A} (o : outcome A)
    (evs1 evs2 : list event) :
  quiet parsed evs1 -> setup_post parsed o evs2 ->
  setup_post parsed o (evs1 ++ evs2).
Proof.
  intros [Hc Hm] [Hc2 Ho]. split; [now apply Forall_app|].
  destruct o as [a|e|n].
  - now apply Forall_app.
  - destruct Ho as [(pre & d & -> & Hpre & Hne)
                   |[Hcl (l & pre & p & fnd & u & H1 & H2 & -> & Hpre & H4)]].
    + left. exists (evs1 ++ pre)%list, d. rewrite app_assoc.
      split; [reflexivity|]. split; [now apply Forall_app|assumption].
    + right. split; [assumption|].
      exists l, (evs1 ++ pre)%list, p, fnd, u. rewrite app_assoc.
      split; [assumption|]. split; [assumption|]. split; [reflexivity|].
      split; [now apply Forall_app|exact H4].
  - destruct Ho as [Hn (pre & d & e & -> & Hpre & He)]. split; [assumption|].
    exists (evs1 ++ pre)%list, d, e. rewrite app_assoc.
    split; [reflexivity|]. split; [now apply Forall_app|assumption].
Qed.

Lemma sat_ret (parsed : namespace) {A} (a : A) : sat parsed (ret a : M W A).
Proof.
  intros st. exists []. cbn. rewrite app_nil_r.
  repeat split; constructor.
Qed.

Lemma sat_bind (parsed : namespace) {A B} (c : M W A) (k : A -> M W B) :
  sat parsed c -> (forall a, sat parsed (k a)) -> sat parsed (bind c k).
Proof.
  intros Hc Hk st. destruct (Hc st) as (evs1 & Ht1 & Hp1).
  unfold bind. destruct (c st) as [[a|e|n] st1]; cbn [fst snd] in *.
  - destruct (Hk a st1) as (evs2 & Ht2 & Hp2).
    exists (evs1 ++ evs2)%list. split.
    + now rewrite Ht2, Ht1, app_assoc.
    + apply setup_post_after; [exact Hp1|exact Hp2].
  - exists evs1. split; assumption.
  - exists evs1. split; assumption.
Qed.

Lemma sat_for_each (parsed : namespace) {A V} (l : list A)
    (body : A -> V -> M W V) (v : V) :
  (forall x v', sat parsed (body x v')) -> sat parsed (for_each l body v).
Proof.
  intros Hb. revert v; induction l as [|x l IH]; intros v; cbn [for_each].
  - apply sat_ret.
  - apply sat_bind; [apply Hb|exact IH].
Qed.

Lemma sat_pmmkdir (parsed : namespace) (direct : string) :
  sat parsed (pmmkdir direct).
Proof.
  intros [w tr].
  unfold pmmkdir, bind, isdir, try_except, makedirs, print, emit, exit.
  cbn [world trace].
  destruct (os_path_isdir w direct); cbn [negb world trace].
  - exists []. cbn. rewrite app_nil_r. repeat split; constructor.
  - destruct (os_makedirs w direct) as [w' [e|]].
    + destruct (String.eqb (exc_class e) "PermissionError") eqn:E;
        cbn [fst snd world trace].
      * eexists. split; [rewrite <- app_assoc; reflexivity|].
        split; [repeat constructor|]. split; [reflexivity|].
        exists [], direct, e. split; [reflexivity|].
        split; [constructor|now apply String.eqb_eq].
      * eexists. split; [reflexivity|].
        split; [repeat constructor|]. left. exists [], direct.
        split; [reflexivity|]. split; [constructor|now apply String.eqb_neq].
    + cbn [fst snd trace]. eexists. split; [reflexivity|].
      repeat split; repeat constructor.
Qed.

Lemma compute_dataroot_startup (env0 : environ) (args : namespace)
    (st : state W) :
  compute_dataroot (startup_env env0) args st = (Ok (the_dataroot args), st).
Proof. reflexivity. Qed.

Lemma py_in_spec (x : string) (l : list string) :
  py_in x l = true <-> In x l.
Proof.
  unfold py_in. rewrite existsb_exists. split.
  - intros (y & Hin & E). apply String.eqb_eq in E. now subst.
  - intros Hin. exists x. split; [assumption|apply String.eqb_refl].
Qed.

Lemma check_loop (msg : string) (l hs : list string) (st : state W) :
  for_each l
    (fun u (_ : unit) =>
       if py_in u hs then ret tt
       else raise (mk_exc "AssertionError" msg)) tt st
  = if forallb (fun u => py_in u hs) l then (Ok tt, st)
    else (Raise (mk_exc "AssertionError" msg), st).
Proof.
  induction l as [|u l IH]; cbn [for_each forallb]; [reflexivity|].
  unfold bind. destruct (py_in u hs); cbn [andb]; [|reflexivity].
  unfold ret at 1. exact IH.
Qed.

Lemma forallb_false {A} (p : A -> bool) (l : list A) :
  forallb p l = false -> exists x, In x l /\ p x = false.
Proof.
  induction l as [|a l IH]; cbn; [discriminate|].
  destruct (p a) eqn:E; cbn.
  - intros H. destruct (IH H) as (x & Hin & Hx). exists x. auto.
  - intros _. exists a. auto.
Qed.

(** Lines 96-100 *)
Lemma select_cases (args : namespace) (hs : list string) (st : state W) :
  match args_healpix args with
  | None => select args hs st = (Ok hs, st)
  | Some l =>
      (Forall (fun u => In u hs) l /\ select args hs st = (Ok l, st))
      \/ (exists u, In u l /\ ~ In u hs
            /\ select args hs st
               = (Raise (mk_exc "AssertionError" (not_available l)), st))
  end.
Proof.
  unfold select. destruct (args_healpix args) as [l|]; [|reflexivity].
  unfold bind. rewrite check_loop.
  destruct (forallb (fun u => py_in u hs) l) eqn:E.
  - left. split; [|reflexivity]. rewrite forallb_forall in E.
    apply Forall_forall. intros u Hu. now apply py_in_spec, E.
  - right. destruct (forallb_false _ _ E) as (u & Hin & Hu).
    exists u. split; [assumption|]. split; [|reflexivity].
    intros Hc. apply py_in_spec in Hc. congruence.
Qed.

Lemma sat_discover_select (parsed : namespace) :
  sat parsed (bind (discover (the_dataroot (apply_debug parsed)))
                   (select (apply_debug parsed))).
Proof.
  set (dataroot := the_dataroot (apply_debug parsed)).
  intros [w tr]. unfold bind, discover. cbn [world trace].
  pose proof (select_cases (apply_debug parsed)
                (map healpix_of_dir (glob w (dataroot ++ "/*/*")))
                (mk_state w (tr ++ [EvGlob (dataroot ++ "/*/*")
                                      (glob w (dataroot ++ "/*/*"))]))) as Hs.
  change (args_healpix (apply_debug parsed)) with (args_healpix parsed) in Hs.
  exists [EvGlob (dataroot ++ "/*/*") (glob w (dataroot ++ "/*/*"))].
  destruct (args_healpix parsed) as [l|] eqn:El.
  - destruct Hs as [[_ ->]|(u & Hin & Hu & ->)]; cbn [fst snd trace].
    + repeat split; repeat constructor.
    + split; [reflexivity|]. split; [repeat constructor|].
      right. split; [reflexivity|].
      exists l, [], (dataroot ++ "/*/*"), (glob w (dataroot ++ "/*/*")), u.
      split; [exact El|]. split; [reflexivity|]. split; [reflexivity|].
      split; [constructor|]. split; assumption.
  - rewrite Hs. cbn [fst snd trace]. repeat split; repeat constructor.
Qed.

Lemma sat_scaffold (parsed : namespace) (outroot : string) (l : list string) :
  sat parsed (scaffold outroot l).
Proof.
  unfold scaffold. apply sat_for_each. intros x v.
  apply sat_bind; [apply sat_pmmkdir|intros _; apply sat_ret].
Qed.

Lemma scaffold_value (outroot : string) (l : list string) (v r : option string)
    (st st' : state W) :
  for_each l
    (fun inputhealpix (_ : option string) =>
       bind (pmmkdir (os_path_join outroot
                        [PyStr.take 3 inputhealpix; inputhealpix]))
            (fun _ => ret (Some inputhealpix))) v st = (Ok r, st') ->
  r = fold_left (fun _ x => Some x) l v.
Proof.
  revert v st; induction l as [|x l IH]; intros v st; cbn [for_each fold_left].
  - unfold ret. congruence.
  - unfold bind at 1 2.
    destruct (pmmkdir _ st) as [[[]|e|n] st1]; try discriminate.
    unfold ret at 1. apply IH.
Qed.

Lemma sat_setup (env0 : environ) (parsed : namespace) :
  sat parsed (setup env0 parsed).
Proof.
  unfold setup. intros st.
  unfold bind at 1. rewrite compute_dataroot_startup.
  revert st. change (sat parsed
    (bind (pmmkdir (compute_outroot (apply_debug parsed)))
       (fun _ =>
          bind (discover (the_dataroot (apply_debug parsed)))
            (fun healpixels =>
               bind (select (apply_debug parsed) healpixels)
                 (fun inputhealpixels =>
                    bind (scaffold (compute_outroot (apply_debug parsed))
                            inputhealpixels)
                      (fun inputhealpix =>
                         ret (the_dataroot (apply_debug parsed),
                              inputhealpixels, inputhealpix))))))).
  apply sat_bind; [apply sat_pmmkdir|intros _].
  intros st.
  pose proof (sat_bind parsed
                (bind (discover (the_dataroot (apply_debug parsed)))
                      (select (apply_debug parsed)))
                (fun inputhealpixels =>
                   bind (scaffold (compute_outroot (apply_debug parsed))
                           inputhealpixels)
                        (fun inputhealpix =>
                           ret (the_dataroot (apply_debug parsed),
                                inputhealpixels, inputhealpix)))
                (sat_discover_select parsed)) as H.
  specialize (H (fun l => sat_bind parsed _ _ (sat_scaffold parsed _ l)
                            (fun ih => sat_ret parsed _)) st).
  destruct H as (evs & Ht & Hp). exists evs.
  unfold bind in *. unfold discover in *. cbn [world trace] in *.
  destruct (select _ _ _) as [[l|e|n] st1]; split; assumption.
Qed.

(** What a successful setup hands to the loop of line 114. *)
Lemma setup_value (env0 : environ) (parsed : namespace) (st st1 : state W)
    (dataroot : string) (l : list string) (ih : option string) :
  setup env0 parsed st = (Ok (dataroot, l, ih), st1) ->
  dataroot = the_dataroot (apply_debug parsed)
  /\ ih = leaked l
  /\ (forall l', args_healpix parsed = Some l' -> l = l').
Proof.
  unfold setup, bind at 1 2 3 4 5.
  rewrite compute_dataroot_startup.
  destruct (pmmkdir _ st) as [[[]|e|n] st2]; try discriminate.
  destruct (discover _ st2) as [[hs|e|n] st3]; try discriminate.
  pose proof (select_cases (apply_debug parsed) hs st3) as Hsel.
  change (args_healpix (apply_debug parsed)) with (args_healpix parsed) in Hsel.
  destruct (select _ hs st3) as [[l'|e|n] st4]; try discriminate.
  destruct (scaffold _ l' st4) as [[ih'|e|n] st5] eqn:Es; try discriminate.
  unfold ret. intros H; inversion H; subst.
  split; [reflexivity|]. split; [exact (scaffold_value _ _ _ _ _ _ Es)|].
  intros l1 Hl1. rewrite Hl1 in Hsel.
  destruct Hsel as [[_ Hs]|(u & _ & _ & Hs)]; congruence.
Qed.

Lemma leaked_last (l : list string) :
  l <> [] -> leaked l = Some (last l EmptyString).
Proof.
  intros Hl. destruct (exists_last Hl) as [l' [y ->]].
  now rewrite leaked_app, last_last.
Qed.

(** The loop of line 114 after the loop of line 103 ran over the same
    list: [inputhealpix] is bound whenever an iteration reads it. *)
Lemma process_all_leaked (args : namespace) (dataroot outroot : string)
    (l : list string) (st : state W) :
  process_all args dataroot outroot (leaked l) l st
  = (Ok (add_failures (mk_failures [] [])
           (captured (snd (steps args dataroot outroot (last l EmptyString)
                             l (world st))))),
     mk_state (fst (steps args dataroot outroot (last l EmptyString) l (world st)))
       (trace st
        ++ snd (steps args dataroot outroot (last l EmptyString) l (world st)))).
Proof.
  destruct l as [|x l].
  - destruct st. cbn. unfold ret. now rewrite app_nil_r.
  - rewrite leaked_last by discriminate. apply process_all_steps.
Qed.

(** The whole run: either the part before the loop ends it, or every
    selected healpix gets its iteration and the summary lists the
    failures those iterations captured. *)
Lemma run_spec (env0 : environ) (parsed : namespace) (st : state W) :
  let args := apply_debug parsed in
  exists evs0,
    trace (snd (setup env0 parsed st)) = (trace st ++ evs0)%list
    /\ setup_post parsed (fst (setup env0 parsed st)) evs0
    /\ match fst (setup env0 parsed st) with
       | Ok (dataroot, l, ih) =>
           let r := steps args (the_dataroot args) (compute_outroot args)
                      (last l EmptyString) l (world (snd (setup env0 parsed st))) in
           (forall l', args_healpix parsed = Some l' -> l = l')
           /\ run env0 parsed st
              = (Ok tt,
                 mk_state (fst r)
                   (trace st
                    ++ evs0 ++ snd r ++ summary_events (captured (snd r))))
       | Raise e => run env0 parsed st = (Raise e, snd (setup env0 parsed st))
       | Exit n => run env0 parsed st = (Exit n, snd (setup env0 parsed st))
       end.
Proof.
  intros args. destruct (sat_setup env0 parsed st) as (evs0 & Ht & Hp).
  exists evs0. split; [exact Ht|]. split; [exact Hp|].
  rewrite run_setup.
  destruct (setup env0 parsed st) as [[[[dr l] ih]|e|n] st1] eqn:Es;
    cbn [fst snd] in *; try reflexivity.
  destruct (setup_value _ _ _ _ _ _ _ Es) as (-> & -> & Hl).
  split; [exact Hl|].
  unfold bind. fold args. rewrite process_all_leaked, summary_of_captured.
  cbn [world trace]. rewrite Ht, <- !app_assoc. reflexivity.
Qed.

End SetupFacts.

(** ** Facts about whole runs *)

Lemma step_starts_with_prints {W : Type} {os : OS W} (args : namespace)
    (dataroot outroot inputhealpix h : string) (w : W) :
  exists rest,
    snd (step args dataroot outroot inputhealpix h w)
    = (path_prints args dataroot outroot inputhealpix h ++ rest)%list
    /\ Forall (call_shape args dataroot outroot inputhealpix) rest.
Proof.
  pose proof (step_shape args dataroot outroot inputhealpix h w) as Hs.
  unfold step in *.
  destruct (negb _ || _); [destruct (desibalfinder _ _) as [w' [e|]]|];
    cbn [snd] in *.
  - eexists. split; [reflexivity|]. now apply Forall_app in Hs.
  - eexists. split; [reflexivity|]. now apply Forall_app in Hs.
  - exists []. split; [now rewrite app_nil_r|constructor].
Qed.

Lemma added_spec {W : Type} (st st' : state W) (evs : list event) :
  trace st' = (trace st ++ evs)%list -> added st st' = evs.
Proof.
  intros H. unfold added. rewrite H.
  rewrite skipn_app, skipn_all, Nat.sub_diag. reflexivity.
Qed.

Lemma setup_events_no_call (parsed : namespace) (evs : list event) :
  Forall (setup_event parsed) evs -> Forall (fun ev => is_call ev = false) evs.
Proof.
  apply Forall_impl. intros [ | | | ]; cbn; auto; contradiction.
Qed.

Lemma run_events {W : Type} {os : OS W} (env0 : environ) (parsed : namespace)
    (st : state W) :
  Forall (run_event parsed) (added st (snd (run env0 parsed st))).
Proof.
  destruct (run_spec env0 parsed st) as (evs0 & Ht & [Hc Hp] & Hr).
  assert (H0 : Forall (run_event parsed) evs0).
  { eapply Forall_impl; [|exact Hc]. intros [ | | | ]; cbn; auto; contradiction. }
  destruct (fst (setup env0 parsed st)) as [[[dr l] ih]|e|n].
  - destruct Hr as [_ Hr]. set (s := steps _ _ _ _ _ _) in Hr.
    rewrite (added_spec _ _ (evs0 ++ snd s ++ summary_events (captured (snd s))))
      by now rewrite Hr.
    rewrite !Forall_app. split; [assumption|]. split.
    + pose proof (steps_shape (apply_debug parsed)
                    (the_dataroot (apply_debug parsed))
                    (compute_outroot (apply_debug parsed))
                    (last l EmptyString) l
                    (world (snd (setup env0 parsed st)))) as Hs.
      fold s in Hs. eapply Forall_impl; [|exact Hs].
      intros [ | | |h c r]; cbn; auto; try contradiction.
      intros ->. now exists (last l EmptyString).
    + constructor; [exact I|]. apply Forall_forall.
      intros ev Hin. apply in_map_iff in Hin. destruct Hin as (p & <- & _).
      exact I.
  - rewrite (added_spec _ _ evs0) by now rewrite Hr. exact H0.
  - rewrite (added_spec _ _ evs0) by now rewrite Hr. exact H0.
Qed.

(** ** Facts about how a run ends *)

Lemma pmmkdir_eq {W : Type} {os : OS W} (direct : string) (st : state W) :
  pmmkdir direct st
  = if os_path_isdir (world st) direct then (Ok tt, st)
    else match os_makedirs (world st) direct with
         | (w', None) =>
             (Ok tt, mk_state w' (trace st ++ [EvMakedirs direct None]))
         | (w', Some e) =>
             if String.eqb (exc_class e) "PermissionError"
             then (Exit 1,
                   mk_state w' (trace st ++ [EvMakedirs direct (Some e);
                                             permission_print direct]))
             else (Raise e,
                   mk_state w' (trace st ++ [EvMakedirs direct (Some e)]))
         end.
Proof.
  destruct st as [w tr].
  unfold pmmkdir, bind, isdir, try_except, makedirs, print, emit, exit,
    permission_print.
  cbn [world trace]. destruct (os_path_isdir w direct); cbn [negb world trace];
    [reflexivity|].
  destruct (os_makedirs w direct) as [w' [e|]]; [|reflexivity].
  destruct (String.eqb (exc_class e) "PermissionError"); cbn [world trace];
    [now rewrite <- app_assoc|reflexivity].
Qed.

Lemma patterns_app (a b : list event) :
  patterns (a ++ b) = (patterns a ++ patterns b)%list.
Proof. apply flat_map_app. Qed.

Lemma shape_no_dirs {W : Type} {os : OS W} (args : namespace)
    (dataroot outroot inputhealpix : string) (evs : list event) :
  Forall (call_shape args dataroot outroot inputhealpix) evs ->
  asked_dirs evs = [] /\ patterns evs = [].
Proof.
  induction 1 as [|ev evs Hev _ [IHa IHp]]; [split; reflexivity|].
  destruct ev; cbn in Hev; try contradiction; cbn; split; assumption.
Qed.

Lemma summary_events_quiet (l : list (string * string)) :
  asked_dirs (summary_events l) = [] /\ patterns (summary_events l) = []
  /\ called (summary_events l) = [].
Proof.
  unfold summary_events. cbn.
  induction l as [|p l (IHa & IHp & IHc)]; [repeat split|].
  cbn. repeat split; assumption.
Qed.

Lemma in_patterns (p : string) (f : list string) (evs : list event) :
  In (EvGlob p f) evs -> In p (patterns evs).
Proof.
  intros H. unfold patterns. apply in_flat_map.
  exists (EvGlob p f). split; [assumption|now left].
Qed.

Lemma pmmkdir_no_glob {W : Type} {os : OS W} (direct : string) (st : state W) :
  exists evs,
    trace (snd (pmmkdir direct st)) = (trace st ++ evs)%list
    /\ patterns evs = [].
Proof.
  rewrite pmmkdir_eq. destruct (os_path_isdir (world st) direct).
  - exists []. split; [now rewrite app_nil_r|reflexivity].
  - destruct (os_makedirs (world st) direct) as [w' [e|]];
      [destruct (String.eqb (exc_class e) "PermissionError")|];
      eexists; split; reflexivity.
Qed.

Lemma scaffold_no_glob {W : Type} {os : OS W} (outroot : string)
    (l : list string) :
  forall (v : option string) (st : state W),
    exists evs,
      trace (snd (for_each l
                    (fun (inputhealpix : string) (_ : option string) =>
                       bind (pmmkdir (os_path_join outroot
                                        [PyStr.take 3 inputhealpix; inputhealpix]))
                            (fun _ => ret (Some inputhealpix))) v st))
      = (trace st ++ evs)%list
      /\ patterns evs = [].
Proof.
  induction l as [|u l IH]; intros v st; cbn [for_each].
  - exists []. split; [now rewrite app_nil_r|reflexivity].
  - unfold bind at 1 2.
    destruct (pmmkdir_no_glob
                (os_path_join outroot [PyStr.take 3 u; u]) st) as (a & Ta & Pa).
    destruct (pmmkdir _ st) as [[[]|e|n] st1]; cbn [snd] in Ta;
      try (exists a; split; assumption).
    unfold ret at 1.
    destruct (IH (Some u) st1) as (b & Tb & Pb).
    exists (a ++ b)%list. split.
    + now rewrite Tb, Ta, app_assoc.
    + now rewrite patterns_app, Pa, Pb.
Qed.

(** The part before the loop calls [glob] at most once; when it does, the
    request of [--healpix] is answered from what that call returned. *)
Lemma setup_anatomy {W : Type} {os : OS W} (env0 : environ)
    (parsed : namespace) (st : state W) :
  exists evs0,
    trace (snd (setup env0 parsed st)) = (trace st ++ evs0)%list
    /\ (patterns evs0 = []
        \/ exists a pattern found b,
             evs0 = (a ++ [EvGlob pattern found] ++ b)%list
             /\ patterns a = [] /\ patterns b = []
             /\ match args_healpix parsed with
                | Some l =>
                    Forall (fun u => In u (map healpix_of_dir found)) l
                    \/ fst (setup env0 parsed st)
                       = Raise (mk_exc "AssertionError" (not_available l))
                | None => True
                end).
Proof.
  unfold setup, bind.
  rewrite compute_dataroot_startup.
  destruct (pmmkdir_no_glob (compute_outroot (apply_debug parsed)) st)
    as (a & Ta & Pa).
  destruct (pmmkdir _ st) as [[[]|e|n] st2]; cbn [snd] in Ta;
    try (exists a; split; [exact Ta|now left]).
  unfold discover.
  set (pattern := (the_dataroot (apply_debug parsed) ++ "/*/*")%string).
  set (found := glob (world st2) pattern).
  set (st3 := mk_state (world st2) (trace st2 ++ [EvGlob pattern found])).
  pose proof (select_cases (apply_debug parsed) (map healpix_of_dir found) st3)
    as Hsel.
  change (args_healpix (apply_debug parsed)) with (args_healpix parsed) in Hsel.
  assert (Hok : forall l : list string,
            match args_healpix parsed with
            | Some l' => Forall (fun u => In u (map healpix_of_dir found)) l'
            | None => True
            end ->
            exists evs0,
              trace (snd (match scaffold (compute_outroot (apply_debug parsed))
                                  l st3 with
                          | (Ok a0, st') =>
                              ret (the_dataroot (apply_debug parsed), l, a0) st'
                          | (Raise e, st') => (Raise e, st')
                          | (Exit n, st') => (Exit n, st')
                          end))
              = (trace st ++ evs0)%list
              /\ exists a' pattern' found' b,
                   evs0 = (a' ++ [EvGlob pattern' found'] ++ b)%list
                   /\ patterns a' = [] /\ patterns b = []
                   /\ match args_healpix parsed with
                      | Some l' =>
                          Forall (fun u => In u (map healpix_of_dir found')) l'
                      | None => True
                      end).
  { intros l Hl. unfold scaffold.
    destruct (scaffold_no_glob (compute_outroot (apply_debug parsed)) l None st3)
      as (b & Tb & Pb).
    exists (a ++ [EvGlob pattern found] ++ b)%list. split.
    - destruct (for_each l _ None st3) as [[ih|e|n] st5];
        unfold ret; cbn [snd] in *; rewrite Tb; subst st3; cbn [trace];
        rewrite Ta, <- !app_assoc; reflexivity.
    - exists a, pattern, found, b. repeat split; assumption. }
  destruct (args_healpix parsed) as [l|].
  - destruct Hsel as [[Hall ->]|(u & Hu & Hno & ->)].
    + destruct (Hok l Hall) as (evs0 & T0 & a' & p' & f' & b & E & Pa' & Pb & H).
      exists evs0. split; [exact T0|]. right.
      exists a', p', f', b. repeat split; try assumption. now left.
    + exists (a ++ [EvGlob pattern found])%list. cbn [fst snd]. split.
      * subst st3. cbn [trace]. now rewrite Ta, <- app_assoc.
      * right. exists a, pattern, found, [].
        split; [reflexivity|]. split; [exact Pa|]. split; [reflexivity|].
        right. reflexivity.
  - rewrite Hsel.
    destruct (Hok (map healpix_of_dir found) I)
      as (evs0 & T0 & a' & p' & f' & b & E & Pa' & Pb & H).
    exists evs0. split; [exact T0|]. right.
    exists a', p', f', b. repeat split; assumption.
Qed.

(** The four ways a run ends: with status 0 after the summary; with
    [exit(1)] right after a PermissionError of [os.makedirs] and its message;
    with another error of [os.makedirs]; or with the AssertionError of line
    98.  In the last three the finder was not called. *)
Lemma run_ends {W : Type} {os : OS W} (env0 : environ)
    (parsed : namespace) (st : state W) :
  let r := run env0 parsed st in
  let evs := added st (snd r) in
  trace (snd r) = (trace st ++ evs)%list
  /\ match fst r with
     | Ok _ =>
         exit_status (fst r) = 0%Z
         /\ Forall makedirs_ok evs
         /\ exists body, evs = (body ++ summary_events (captured body))%list
     | Exit n =>
         n = 1%Z
         /\ Forall (fun ev => is_call ev = false) evs
         /\ exists pre direct e,
              evs = (pre ++ [EvMakedirs direct (Some e);
                             permission_print direct])%list
              /\ Forall makedirs_ok pre
              /\ exc_class e = "PermissionError"
     | Raise e =>
         exit_status (fst r) = 1%Z
         /\ Forall (fun ev => is_call ev = false) evs
         /\ ((exists pre direct,
                evs = (pre ++ [EvMakedirs direct (Some e)])%list
                /\ Forall makedirs_ok pre
                /\ exc_class e <> "PermissionError")
             \/ refused parsed evs e)
     end.
Proof.
  intros r evs.
  destruct (run_spec env0 parsed st) as (evs0 & Ht & [Hc Hp] & Hr).
  destruct (fst (setup env0 parsed st)) as [[[dr l] ih]|e|n].
  - destruct Hr as [_ Hr].
    set (s := steps _ _ _ _ _ _) in Hr.
    assert (Hevs : evs = (evs0 ++ snd s ++ summary_events (captured (snd s)))%list).
    { subst evs r. apply added_spec. now rewrite Hr. }
    subst r. rewrite Hevs, Hr. cbn [fst snd trace exit_status].
    split; [reflexivity|]. split; [reflexivity|]. split.
    + rewrite !Forall_app. split; [assumption|]. split.
      * pose proof (steps_shape (apply_debug parsed)
                      (the_dataroot (apply_debug parsed))
                      (compute_outroot (apply_debug parsed))
                      (last l EmptyString) l
                      (world (snd (setup env0 parsed st)))) as Hs.
        fold s in Hs. eapply Forall_impl; [|exact Hs].
        intros [ | | | ]; cbn; auto; contradiction.
      * constructor; [exact I|]. apply Forall_forall.
        intros ev Hin. apply in_map_iff in Hin. destruct Hin as (p & <- & _).
        exact I.
    + exists (evs0 ++ snd s)%list. rewrite captured_app.
      assert (Hnone : captured evs0 = []).
      { clear -Hc. induction Hc as [|ev evs' Hev _ IH]; [reflexivity|].
        destruct ev; try contradiction; exact IH. }
      rewrite Hnone. cbn [app]. now rewrite app_assoc.
  - assert (Hevs : evs = evs0).
    { subst evs r. apply added_spec. now rewrite Hr. }
    subst r. rewrite Hevs, Hr. cbn [fst snd exit_status].
    split; [exact Ht|]. split; [reflexivity|].
    split; [now apply setup_events_no_call with parsed|assumption].
  - assert (Hevs : evs = evs0).
    { subst evs r. apply added_spec. now rewrite Hr. }
    subst r. rewrite Hevs, Hr. cbn [fst snd].
    split; [exact Ht|]. destruct Hp as [Hn Hp]. split; [assumption|].
    split; [now apply setup_events_no_call with parsed|assumption].
Qed.

(** [os.makedirs] raised: the run ended there. *)
Lemma makedirs_raised_ends {W : Type} {os : OS W} (env0 : environ)
    (parsed : namespace) (st : state W) (direct : string) (e : exc) :
  In (EvMakedirs direct (Some e)) (added st (snd (run env0 parsed st))) ->
  fst (run env0 parsed st)
  = if String.eqb (exc_class e) "PermissionError" then Exit 1 else Raise e.
Proof.
  intros Hin. destruct (run_ends env0 parsed st) as [_ H].
  cbv zeta in H.
  destruct (fst (run env0 parsed st)) as [[]|e0|n].
  - destruct H as (_ & Hok & _). rewrite Forall_forall in Hok.
    destruct (Hok _ Hin).
  - destruct H as (_ & _ & [(pre & d & E & Hpre & Hc)|(_ & H)]).
    + rewrite E in Hin. apply in_app_or in Hin. destruct Hin as [Hin|[Hin|[]]].
      * rewrite Forall_forall in Hpre. destruct (Hpre _ Hin).
      * injection Hin as _ ->.
        apply String.eqb_neq in Hc. now rewrite Hc.
    + destruct H as (l & pre & p & f & u & _ & _ & E & Hpre & _).
      rewrite E in Hin. apply in_app_or in Hin. destruct Hin as [Hin|[Hin|[]]].
      * rewrite Forall_forall in Hpre. destruct (Hpre _ Hin).
      * discriminate Hin.
  - destruct H as (-> & _ & pre & d & e1 & E & Hpre & Hc).
    rewrite E in Hin. apply in_app_or in Hin.
    destruct Hin as [Hin|[Hin|[Hin|[]]]].
    + rewrite Forall_forall in Hpre. destruct (Hpre _ Hin).
    + injection Hin as _ ->. apply String.eqb_eq in Hc. now rewrite Hc.
    + discriminate Hin.
Qed.

(** A requested healpix is not among the names [glob] returned: the run
    ended with the AssertionError of line 98. *)
Lemma request_missing_ends {W : Type} {os : OS W} (env0 : environ)
    (parsed : namespace) (st : state W) (l : list string) (pattern : string)
    (found : list string) (u : string) :
  args_healpix parsed = Some l ->
  In (EvGlob pattern found) (added st (snd (run env0 parsed st))) ->
  In u l ->
  ~ In u (map healpix_of_dir found) ->
  fst (run env0 parsed st) = Raise (mk_exc "AssertionError" (not_available l)).
Proof.
  intros Hl Hin Hu Hno.
  destruct (run_spec env0 parsed st) as (evs0 & Ht & _ & Hr).
  destruct (setup_anatomy env0 parsed st) as (evs1 & Ht1 & Hcases).
  assert (evs1 = evs0) as -> by (apply (app_inv_head (trace st)); congruence).
  assert (Hevs : exists rest,
            added st (snd (run env0 parsed st)) = (evs0 ++ rest)%list
            /\ patterns rest = []
            /\ (fst (setup env0 parsed st)
                = Raise (mk_exc "AssertionError" (not_available l)) ->
                fst (run env0 parsed st)
                = Raise (mk_exc "AssertionError" (not_available l)))).
  { destruct (fst (setup env0 parsed st)) as [[[dr l0] ih]|e|n].
    - destruct Hr as [_ Hr]. set (s := steps _ _ _ _ _ _) in Hr.
      exists (snd s ++ summary_events (captured (snd s)))%list.
      split; [apply added_spec; now rewrite Hr|].
      split; [|intros H; discriminate H].
      rewrite patterns_app.
      destruct (summary_events_quiet (captured (snd s))) as (_ & -> & _).
      pose proof (steps_shape (apply_debug parsed)
                    (the_dataroot (apply_debug parsed))
                    (compute_outroot (apply_debug parsed))
                    (last l0 EmptyString) l0
                    (world (snd (setup env0 parsed st)))) as Hs.
      fold s in Hs. apply shape_no_dirs in Hs. destruct Hs as [_ ->].
      reflexivity.
    - exists []. rewrite app_nil_r.
      split; [apply added_spec; now rewrite Hr|].
      split; [reflexivity|]. intros H. rewrite Hr. injection H as ->. reflexivity.
    - exists []. rewrite app_nil_r.
      split; [apply added_spec; now rewrite Hr|].
      split; [reflexivity|]. intros H. discriminate H. }
  destruct Hevs as (rest & E & Prest & Hraise).
  rewrite E in Hin. apply in_app_or in Hin.
  assert (Hnot : forall evs : list event,
            patterns evs = [] -> ~ In (EvGlob pattern found) evs).
  { intros evs P H. apply in_patterns in H. rewrite P in H. destruct H. }
  destruct Hin as [Hin|Hin]; [|destruct (Hnot _ Prest Hin)].
  destruct Hcases as [P0|(a & p & f & b & E0 & Pa & Pb & Hsel)];
    [destruct (Hnot _ P0 Hin)|].
  rewrite E0 in Hin. apply in_app_or in Hin.
  destruct Hin as [Hin|[Hin|Hin]];
    [destruct (Hnot _ Pa Hin)| |destruct (Hnot _ Pb Hin)].
  injection Hin as -> ->. rewrite Hl in Hsel.
  destruct Hsel as [Hall|Hsel]; [|exact (Hraise Hsel)].
  rewrite Forall_forall in Hall. destruct (Hno (Hall _ Hu)).
Qed.

(** ** Facts about the value of [--clobber] *)

Lemma clobber_values_cons (t : string) (rest : list string) :
  clobber_values (t :: rest)
  = if is_clobber t then (first_of rest ++ clobber_values rest)%list
    else clobber_values rest.
Proof. destruct rest; cbn [clobber_values first_of app]; now destruct (is_clobber t). Qed.

Lemma classify_clobber (t : string) (d : Argparse.dest) :
  Argparse.classify t = Argparse.TokO d ->
  is_clobber t = Argparse.dest_eqb Argparse.d_clobber d.
Proof.
  unfold Argparse.classify, is_clobber.
  cbn [Argparse.lookup Argparse.option_strings].
  repeat match goal with
         | |- context [String.eqb t ?s] =>
             let E := fresh "E" in
             destruct (String.eqb t s) eqn:E;
             [apply String.eqb_eq in E; subst t; vm_compute;
              intros H; injection H as <-; reflexivity|]
         end.
  cbn. destruct (_ && _); discriminate.
Qed.

Lemma classify_argument (t : string) :
  Argparse.classify t = Argparse.TokA -> is_clobber t = false.
Proof.
  unfold Argparse.classify, is_clobber.
  cbn [Argparse.lookup Argparse.option_strings].
  repeat match goal with
         | |- context [String.eqb t ?s] =>
             let E := fresh "E" in
             destruct (String.eqb t s) eqn:E; [discriminate|]
         end.
  reflexivity.
Qed.

Lemma values_of_snoc (d d' : Argparse.dest) (vs : list string)
    (acts : Argparse.actions) :
  Argparse.values_of d (acts ++ [(d', vs)])%list
  = if Argparse.dest_eqb d d' then Some vs else Argparse.values_of d acts.
Proof.
  induction acts as [|[a va] acts IH]; cbn [app Argparse.values_of].
  - reflexivity.
  - rewrite IH. destruct (Argparse.dest_eqb d d'); [reflexivity|].
    now destruct (Argparse.values_of d acts).
Qed.

Lemma bool_arg_snoc (d : Argparse.dest) (v : string) (acts : Argparse.actions) :
  Argparse.bool_arg Argparse.d_clobber false (acts ++ [(d, [v])])%list
  = if Argparse.dest_eqb Argparse.d_clobber d then PyStr.bool_of_str v
    else Argparse.bool_arg Argparse.d_clobber false acts.
Proof.
  unfold Argparse.bool_arg, Argparse.value_of. rewrite values_of_snoc.
  now destruct (Argparse.dest_eqb Argparse.d_clobber d).
Qed.

Lemma bool_arg_flush (m : Argparse.mode) (acts : Argparse.actions) :
  Argparse.bool_arg Argparse.d_clobber false (Argparse.flush m acts)
  = Argparse.bool_arg Argparse.d_clobber false acts.
Proof.
  destruct m; cbn [Argparse.flush]; try reflexivity.
  unfold Argparse.bool_arg, Argparse.value_of. now rewrite values_of_snoc.
Qed.

Lemma finish_clobber (acts : Argparse.actions) (extras : bool) (ns : namespace) :
  Argparse.finish acts extras = Argparse.Parsed ns ->
  args_clobber ns = Argparse.bool_arg Argparse.d_clobber false acts.
Proof.
  unfold Argparse.finish.
  destruct (Argparse.value_of Argparse.d_outdir acts); [|discriminate].
  destruct extras; [discriminate|]. intros H; inversion H. reflexivity.
Qed.

Lemma scan_clobber (toks : list string) :
  forall (m : Argparse.mode) (acts : Argparse.actions) (extras : bool)
         (ns : namespace),
    Argparse.scan toks m acts extras = Argparse.Parsed ns ->
    args_clobber ns
    = last_wins (pending m toks)
        (Argparse.bool_arg Argparse.d_clobber false acts).
Proof.
  induction toks as [|t rest IH]; intros m acts extras ns; cbn [Argparse.scan].
  - destruct m as [|d|vals]; try discriminate; intros H;
      apply finish_clobber in H; rewrite H, bool_arg_flush; reflexivity.
  - destruct (Argparse.classify t) as [d| |] eqn:Ec.
    + pose proof (classify_clobber t d Ec) as Hc.
      destruct m as [|d0|vals]; try discriminate;
        destruct d; try discriminate; intros H; apply IH in H; rewrite H;
        rewrite bool_arg_flush; unfold pending; rewrite clobber_values_cons, Hc;
        reflexivity.
    + pose proof (classify_argument t Ec) as Hc.
      destruct m as [|d0|vals]; intros H; apply IH in H; rewrite H;
        unfold pending; rewrite clobber_values_cons, Hc.
      * reflexivity.
      * rewrite bool_arg_snoc.
        now destruct (Argparse.dest_eqb Argparse.d_clobber d0).
      * reflexivity.
    + discriminate.
Qed.

Lemma last_cons_default {A} (l : list A) (a d d' : A) :
  last (a :: l) d = last (a :: l) d'.
Proof.
  revert a; induction l as [|x l IH]; intros a; [reflexivity|].
  change (last (x :: l) d = last (x :: l) d'). apply IH.
Qed.

Lemma last_wins_last (vs : list string) (b : bool) :
  last_wins vs b = last (map PyStr.bool_of_str vs) b.
Proof.
  revert b; induction vs as [|v vs IH]; intros b; [reflexivity|].
  unfold last_wins in *. cbn [fold_left map]. rewrite IH.
  destruct vs as [|x vs]; [reflexivity|].
  cbn [map]. rewrite (last_cons_default _ _ _ b). reflexivity.
Qed.

Lemma calls_for_step {W : Type} {os : OS W} (args : namespace)
    (dataroot outroot inputhealpix h : string) (w : W) :
  calls_for h (snd (step args dataroot outroot inputhealpix h w))
  = if negb (os_path_isfile w (balfile args outroot inputhealpix h))
       || args_clobber args
    then [(the_call args dataroot outroot inputhealpix h,
           snd (desibalfinder w (the_call args dataroot outroot inputhealpix h)))]
    else [].
Proof.
  unfold step.
  destruct (negb _ || _); [destruct (desibalfinder _ _) as [w' [e|]]|];
    cbn [snd]; rewrite ?calls_for_app, ?calls_for_path_prints;
    cbn [calls_for flat_map app error_print]; rewrite ?String.eqb_refl;
    reflexivity.
Qed.

(** * Part III: the claims *)

(** C1. Run on the healpix 100 and 200: the iteration for healpix 100 builds
    its input file and its output directory from [inputhealpix], which the
    loop of line 103 left at 200, not from its own healpix.  The claim asks
    for [.../dark/100/100/coadd-main-dark-100.fits] and
    [out/.../dark/100/100]. *)
Theorem first_healpix_gets_directories_of_last :
  let r := run [] (request (Some ["100"; "200"]) false)
             (Sim.start Sim.two_healpix) in
  fst r = Ok tt
  /\ calls_for "100" (trace (snd r))
     = [(mk_call
           "/global/cfs/cdirs/desi/spectro/redux/everest/healpix/main/dark/200/200/coadd-main-dark-100.fits"
           "out/everest/healpix/main/dark/200/200" false true "everest",
         None)]
  /\ In "BAL file:  out/everest/healpix/main/dark/200/200/baltable-main-dark-100.fits"
        (printed (trace (snd r)))
  /\ ~ In (EvCall "100"
             (mk_call
                "/global/cfs/cdirs/desi/spectro/redux/everest/healpix/main/dark/100/100/coadd-main-dark-100.fits"
                "out/everest/healpix/main/dark/100/100" false true "everest")
             None)
          (trace (snd r)).
Proof.
  vm_compute. split; [reflexivity|]. split; [reflexivity|].
  split; [tauto|]. intros H.
  repeat (destruct H as [H|H]; [discriminate H|]). exact H.
Qed.

(** C2. The catalog of healpix 100 exists at its mirrored path and clobber
    is false, yet the finder is called for healpix 100: the file the
    script looks for is in the directory of healpix 200. *)
Theorem existing_catalog_not_skipped :
  let w := Sim.mk_world
             [Sim.dark ++ "/100/100"; Sim.dark ++ "/200/200";
              "out/everest/healpix/main/dark";
              "out/everest/healpix/main/dark/100/100"]
             ["out/everest/healpix/main/dark/100/100/baltable-main-dark-100.fits"]
             [] [] in
  let parsed := request (Some ["100"; "200"]) false in
  let r := run [] parsed (Sim.start w) in
  os_path_isfile w
    (os_path_join (args_outdir parsed)
       ["everest"; "healpix"; "main"; "dark"; PyStr.take 3 "100"; "100";
        "baltable-main-dark-100.fits"]) = true
  /\ args_clobber parsed = false
  /\ fst r = Ok tt
  /\ calls_for "100" (trace (snd r))
     = [(mk_call
           "/global/cfs/cdirs/desi/spectro/redux/everest/healpix/main/dark/200/200/coadd-main-dark-100.fits"
           "out/everest/healpix/main/dark/200/200" false true "everest",
         None)].
Proof. vm_compute. repeat split. Qed.

(** C3. With release everest, survey main, moon dark and the single
    healpix 100, whatever the environment, the output root and the two
    flags: the environment variable read at line 74 holds
    [/global/cfs/cdirs/desi/spectro/redux]; the input file of healpix 100
    is that value followed by
    [/everest/healpix/main/dark/100/100/coadd-main-dark-100.fits]; the
    output file is [outdir] joined ([os.path.join]) with
    [everest/healpix/main/dark/100/100/baltable-main-dark-100.fits], which
    is [outdir/everest/...] for an [outdir] that is not empty and has no
    separator at its end; and a run that reaches its end printed both
    paths. *)
Theorem single_healpix_paths (env0 : environ) (o : string) (c v : bool) :
  let parsed := mk_namespace (Some ["100"]) "everest" "main" "dark" o c v in
  let args := apply_debug parsed in
  let coadd :=
    ("/global/cfs/cdirs/desi/spectro/redux"
     ++ "/everest/healpix/main/dark/100/100/coadd-main-dark-100.fits")%string in
  let bal :=
    (with_sep o
     ++ "everest/healpix/main/dark/100/100/baltable-main-dark-100.fits")%string in
  getenv "DESI_SPECTRO_REDUX" (startup_env env0)
  = Some "/global/cfs/cdirs/desi/spectro/redux"
  /\ leaked ["100"] = Some "100"
  /\ coaddfile args (the_dataroot args) "100" "100" = coadd
  /\ balfile args (compute_outroot args) "100" "100" = bal
  /\ (o <> EmptyString -> PyStr.endswith "/" o = false ->
      bal = (o ++ "/everest/healpix/main/dark/100/100/baltable-main-dark-100.fits")%string)
  /\ forall (W : Type) (os : OS W) (st : state W),
       fst (run env0 parsed st) = Ok tt ->
       exists before after,
         trace (snd (run env0 parsed st))
         = (trace st ++ before
            ++ [EvPrint (PyStr.join " " ["Coadd file: "; coadd]);
                EvPrint (PyStr.join " " ["BAL file: "; bal])]
            ++ after)%list.
Proof.
  intros parsed args coadd bal.
  assert (Hbal : balfile args (compute_outroot args) "100" "100" = bal).
  { unfold balfile, outdir, compute_outroot, os_path_join, bal.
    cbn [fold_left args_outdir args_release args_survey args_moon args
         apply_debug debug parsed].
    rewrite (join_step_head o "everest") by reflexivity.
    rewrite !join_step_plain by (reflexivity || discriminate).
    reflexivity. }
  split; [reflexivity|]. split; [reflexivity|]. split; [reflexivity|].
  split; [exact Hbal|]. split.
  - intros Ho He. unfold bal. rewrite with_sep_plain by assumption.
    now rewrite append_assoc.
  - intros W os st Hok.
    destruct (run_spec env0 parsed st) as (evs0 & Ht & Hp & Hr).
    destruct (fst (setup env0 parsed st)) as [[[dr l] ih]|e|n].
    + destruct Hr as [Hl Hr]. specialize (Hl _ eq_refl). subst l.
      rewrite Hr. cbn [snd trace fst last steps].
      destruct (step_starts_with_prints (apply_debug parsed)
                  (the_dataroot (apply_debug parsed))
                  (compute_outroot (apply_debug parsed)) "100" "100"
                  (world (snd (setup env0 parsed st)))) as (rest & Hs & _).
      destruct (step _ _ _ _ _ _) as [w1 evs1]. cbn [snd fst] in *.
      subst evs1. fold args. unfold path_prints.
      change (args_verbose args) with true. cbv iota.
      rewrite Hbal. change (coaddfile args (the_dataroot args) "100" "100") with coadd.
      exists evs0. eexists. rewrite app_nil_r, <- !app_assoc. reflexivity.
    + rewrite Hr in Hok. discriminate.
    + rewrite Hr in Hok. discriminate.
Qed.

Lemma single_healpix_paths_witness :
  let parsed := mk_namespace (Some ["100"]) "everest" "main" "dark" "out" false false in
  let r := run [] parsed (Sim.start Sim.two_healpix) in
  ("out" <> EmptyString
   /\ PyStr.endswith "/" "out" = false
   /\ (with_sep "out"
       ++ "everest/healpix/main/dark/100/100/baltable-main-dark-100.fits")%string
      = "out/everest/healpix/main/dark/100/100/baltable-main-dark-100.fits")
  /\ fst r = Ok tt
  /\ exists before after,
       trace (snd r)
       = (trace (Sim.start Sim.two_healpix) ++ before
          ++ [EvPrint (PyStr.join " "
                ["Coadd file: ";
                 ("/global/cfs/cdirs/desi/spectro/redux"
                  ++ "/everest/healpix/main/dark/100/100/coadd-main-dark-100.fits")%string]);
              EvPrint (PyStr.join " "
                ["BAL file: ";
                 (with_sep "out"
                  ++ "everest/healpix/main/dark/100/100/baltable-main-dark-100.fits")%string])]
          ++ after)%list.
Proof.
  intros parsed r.
  destruct (single_healpix_paths [] "out" false false)
    as (_ & _ & _ & _ & Hlit & Hrun).
  split.
  - split; [discriminate|]. split; [reflexivity|].
    apply Hlit; [discriminate|reflexivity].
  - split; [vm_compute; reflexivity|].
    apply (Hrun _ _ (Sim.start Sim.two_healpix)). vm_compute. reflexivity.
Defined.

(** C4, as stated, fails: healpix 100 is requested twice and its call
    raises both times, so the summary prints it twice. *)
Lemma failing_healpix_listed_twice :
  let w := Sim.mk_world [Sim.dark ++ "/100/100"] [] []
             [(Sim.dark ++ "/100/100/coadd-main-dark-100.fits",
               mk_exc "ValueError" "no spectra")] in
  let r := run [] (request (Some ["100"; "100"]) false) (Sim.start w) in
  fst r = Ok tt
  /\ map snd (calls_for "100" (trace (snd r)))
     = [Some (mk_exc "ValueError" "no spectra");
        Some (mk_exc "ValueError" "no spectra")]
  /\ count_occ string_dec (printed (trace (snd r))) "100 : <class 'ValueError'>"
     = 2
  /\ count_occ string_dec (printed (trace (snd r))) "100 : <class 'ValueError'>"
     <> 1.
Proof. vm_compute. repeat split; discriminate. Qed.

(** C4, amended. The loop of line 114 gives every selected healpix its
    iteration, in order, whatever the calls before raised, and ends
    normally; the summary then prints one line for each call that raised,
    oldest first, with the healpix of the call and the class of what it
    raised.  So a healpix whose call raised is in the summary with that
    class, and exactly once when it is selected once. *)
Theorem each_failing_call_reported {W : Type} {os : OS W} (parsed : namespace)
    (dataroot outroot : string) (l : list string) (st : state W) :
  let args := apply_debug parsed in
  let r := process_all args dataroot outroot (leaked l) l st in
  let evs := added st (snd r) in
  filter is_coadd_print evs
  = map (fun h => EvPrint (PyStr.join " "
                   ["Coadd file: ";
                    coaddfile args dataroot (last l EmptyString) h])) l
  /\ bind (process_all args dataroot outroot (leaked l) l) summary st
     = (Ok tt,
        mk_state (world (snd r))
          (trace st ++ evs ++ summary_events (captured evs)))
  /\ forall h c e,
       In (EvCall h c (Some e)) evs ->
       In (h, exc_class e) (captured evs)
       /\ (count_occ string_dec l h = 1 ->
           entries_for h (captured evs) = [(h, exc_class e)]).
Proof.
  intros args r evs.
  assert (Hevs : evs = snd (steps args dataroot outroot (last l EmptyString) l
                              (world st))).
  { subst evs r. apply added_spec. now rewrite process_all_leaked. }
  split; [rewrite Hevs; now apply steps_coadd_prints|].
  split.
  - unfold bind. fold r. subst r. rewrite process_all_leaked in *.
    rewrite summary_of_captured. cbn [snd world trace].
    now rewrite Hevs, <- app_assoc.
  - intros h c e Hin. split; [now apply in_captured with c|].
    intros Hone. apply single_entry with c; [|assumption].
    rewrite Hevs, <- Hone. apply steps_calls_for.
Qed.

Lemma each_failing_call_reported_witness :
  let w := Sim.mk_world [Sim.dark ++ "/100/100"; Sim.dark ++ "/200/200"] [] []
             [(Sim.dark ++ "/200/200/coadd-main-dark-100.fits",
               mk_exc "ValueError" "no spectra")] in
  let args := apply_debug (request None false) in
  let r := process_all args Sim.dark "out/everest/healpix/main/dark"
             (leaked ["100"; "200"]) ["100"; "200"] (Sim.start w) in
  entries_for "100" (captured (added (Sim.start w) (snd r)))
  = [("100", "ValueError")].
Proof.
  intros w args r.
  destruct (each_failing_call_reported (request None false) Sim.dark
              "out/everest/healpix/main/dark" ["100"; "200"] (Sim.start w))
    as (_ & _ & H).
  refine (proj2 (H "100"
                   (the_call args Sim.dark "out/everest/healpix/main/dark"
                      "200" "100")
                   (mk_exc "ValueError" "no spectra") _) _).
  - vm_compute. right. right. left. reflexivity.
  - reflexivity.
Defined.

(** C5, as stated, fails: a requested healpix that is not available ends
    the run with status 1 although no directory creation failed. *)
Lemma missing_healpix_exits_nonzero :
  let r := run [] (request (Some ["999"]) false) (Sim.start Sim.two_healpix) in
  exit_status (fst r) = 1%Z
  /\ exit_status (fst r) <> 0%Z
  /\ ~ (exists direct e, In (EvMakedirs direct (Some e)) (trace (snd r))).
Proof.
  vm_compute. split; [reflexivity|]. split; [discriminate|].
  intros (direct & e & H).
  repeat (destruct H as [H|H]; [discriminate H|]). exact H.
Qed.

(** C5, amended. A run on a parsed command line ends with a status that
    is not 0 exactly when [os.makedirs] raised or a requested healpix is not
    among the names [glob] returned.  A PermissionError of [os.makedirs]
    ends the run with [exit(1)], right after its message; another error of
    [os.makedirs] is not caught; a requested healpix that is missing ends
    the run with the AssertionError of line 98; and in all three the finder
    was not called.  Every other run ends with status 0, after the summary
    printed every failure the calls of the finder raised. *)
Theorem exit_behaviour {W : Type} {os : OS W} (env0 : environ)
    (parsed : namespace) (st : state W) :
  let r := run env0 parsed st in
  let evs := added st (snd r) in
  trace (snd r) = (trace st ++ evs)%list
  /\ (exit_status (fst r) <> 0%Z
      <-> makedirs_raised evs \/ request_missing parsed evs)
  /\ (forall direct e,
        In (EvMakedirs direct (Some e)) evs ->
        fst r = if String.eqb (exc_class e) "PermissionError"
                then Exit 1 else Raise e)
  /\ (forall l pattern found u,
        args_healpix parsed = Some l ->
        In (EvGlob pattern found) evs ->
        In u l ->
        ~ In u (map healpix_of_dir found) ->
        fst r = Raise (mk_exc "AssertionError" (not_available l)))
  /\ match fst r with
     | Ok _ =>
         exit_status (fst r) = 0%Z
         /\ Forall makedirs_ok evs
         /\ exists body, evs = (body ++ summary_events (captured body))%list
     | Exit n =>
         n = 1%Z
         /\ Forall (fun ev => is_call ev = false) evs
         /\ exists pre direct e,
              evs = (pre ++ [EvMakedirs direct (Some e);
                             permission_print direct])%list
              /\ Forall makedirs_ok pre
              /\ exc_class e = "PermissionError"
     | Raise e =>
         exit_status (fst r) = 1%Z
         /\ Forall (fun ev => is_call ev = false) evs
         /\ ((exists pre direct,
                evs = (pre ++ [EvMakedirs direct (Some e)])%list
                /\ Forall makedirs_ok pre
                /\ exc_class e <> "PermissionError")
             \/ refused parsed evs e)
     end.
Proof.
  intros r evs.
  pose proof (run_ends env0 parsed st) as [Ht Hends].
  pose proof (makedirs_raised_ends env0 parsed st) as Hmk.
  pose proof (request_missing_ends env0 parsed st) as Hreq.
  fold r in Ht, Hends, Hmk, Hreq. fold evs in Ht, Hends, Hmk, Hreq.
  split; [exact Ht|]. split; [|split; [exact Hmk|split; [exact Hreq|]]].
  - split.
    + intros Hst. destruct (fst r) as [[]|e|n].
      * now destruct Hst.
      * destruct Hends as (_ & _ & [(pre & d & E & _)|(_ & H)]).
        -- left. exists d, e. rewrite E. apply in_or_app. right. now left.
        -- right. destruct H as (l & pre & p & f & u & Hl & _ & E & _ & Hu & Hno).
           exists l, p, f, u. split; [exact Hl|]. split; [|split; assumption].
           rewrite E. apply in_or_app. right. now left.
      * destruct Hends as (_ & _ & pre & d & e & E & _).
        left. exists d, e. rewrite E. apply in_or_app. right. now left.
    + intros [(d & e & Hin)|(l & p & f & u & Hl & Hin & Hu & Hno)].
      * rewrite (Hmk d e Hin).
        destruct (String.eqb (exc_class e) "PermissionError"); discriminate.
      * rewrite (Hreq l p f u Hl Hin Hu Hno). discriminate.
  - exact Hends.
Qed.

(** The three fatal paths on concrete worlds: a requested healpix that is
    not available, an output root that may not be made, and an output root
    that is a file. *)
Lemma exit_behaviour_witness :
  let out := "out/everest/healpix/main/dark" in
  let world_with files denied :=
    Sim.start (Sim.mk_world (Sim.dirs Sim.two_healpix) files denied []) in
  let missing :=
    run [] (request (Some ["999"]) false) (Sim.start Sim.two_healpix) in
  let denied := run [] (request None false) (world_with [] [out]) in
  let blocked := run [] (request None false) (world_with [out] []) in
  fst missing = Raise (mk_exc "AssertionError" (not_available ["999"]))
  /\ fst denied = Exit 1
  /\ exit_status (fst denied) <> 0%Z
  /\ fst blocked = Raise (mk_exc "FileExistsError" out).
Proof.
  intros out world_with missing denied blocked.
  pose proof (exit_behaviour [] (request (Some ["999"]) false)
                (Sim.start Sim.two_healpix)) as (_ & _ & _ & Hmissing & _).
  pose proof (exit_behaviour [] (request None false) (world_with [] [out]))
    as (_ & Hiff & Hdenied & _).
  pose proof (exit_behaviour [] (request None false) (world_with [out] []))
    as (_ & _ & Hblocked & _).
  split; [|split; [|split]].
  - apply (Hmissing ["999"] (Sim.dark ++ "/*/*")%string
             (glob Sim.two_healpix (Sim.dark ++ "/*/*")%string) "999").
    + reflexivity.
    + vm_compute. right. left. reflexivity.
    + now left.
    + vm_compute. intros H0.
      repeat (destruct H0 as [H0|H0]; [discriminate H0|]). exact H0.
  - apply (Hdenied out (mk_exc "PermissionError" out)).
    vm_compute. left. reflexivity.
  - apply (proj2 Hiff). left. exists out, (mk_exc "PermissionError" out).
    vm_compute. left. reflexivity.
  - apply (Hblocked out (mk_exc "FileExistsError" out)).
    vm_compute. left. reflexivity.
Defined.

(** C6, as stated, fails: the program starts with DESI_SPECTRO_REDUX set to
    [/data/redux], and the healpix are looked up and read below
    [/global/cfs/cdirs/desi/spectro/redux]. *)
Lemma environment_value_not_used :
  let env0 := [("DESI_SPECTRO_REDUX", "/data/redux")] in
  let parsed := request (Some ["100"]) false in
  let r := run env0 parsed (Sim.start Sim.two_healpix) in
  getenv "DESI_SPECTRO_REDUX" env0 = Some "/data/redux"
  /\ patterns (trace (snd r))
     = ["/global/cfs/cdirs/desi/spectro/redux/everest/healpix/main/dark/*/*"]
  /\ map (fun cr => c_coaddfile (fst cr)) (calls_for "100" (trace (snd r)))
     = ["/global/cfs/cdirs/desi/spectro/redux/everest/healpix/main/dark/100/100/coadd-main-dark-100.fits"]
  /\ ~ In (os_path_join "/data/redux" ["everest"; "healpix"; "main"; "dark"]
           ++ "/*/*")%string
          (patterns (trace (snd r))).
Proof.
  vm_compute. split; [reflexivity|]. split; [reflexivity|].
  split; [reflexivity|]. intros [H|[]]. discriminate H.
Qed.

(** C6, amended. The input root is read from the environment variable
    DESI_SPECTRO_REDUX after line 40 has set that variable: whatever the
    environment the program starts with, the value read is
    [/global/cfs/cdirs/desi/spectro/redux], the input root is that value
    joined with release/healpix/survey/moon, the run is the run of the
    empty environment, [glob] is called on the pattern below that root and
    every input file given to the finder is joined from that root. *)
Theorem dataroot_is_fixed {W : Type} {os : OS W} (env0 : environ)
    (parsed : namespace) (st : state W) :
  let args := apply_debug parsed in
  let root :=
    os_path_join "/global/cfs/cdirs/desi/spectro/redux"
      [args_release parsed; "healpix"; args_survey parsed; args_moon parsed] in
  getenv "DESI_SPECTRO_REDUX" (startup_env env0)
  = Some "/global/cfs/cdirs/desi/spectro/redux"
  /\ compute_dataroot (startup_env env0) args st = (Ok root, st)
  /\ run env0 parsed st = run [] parsed st
  /\ Forall (fun ev =>
               match ev with
               | EvGlob pattern _ => pattern = (root ++ "/*/*")%string
               | EvCall h c _ =>
                   exists inputhealpix,
                     c_coaddfile c
                     = os_path_join root
                         [PyStr.take 3 inputhealpix; inputhealpix;
                          coaddfilename args h]
               | _ => True
               end)
            (added st (snd (run env0 parsed st))).
Proof.
  intros args root.
  split; [reflexivity|]. split; [reflexivity|]. split; [reflexivity|].
  eapply Forall_impl; [|apply run_events].
  intros [ | | |h c r]; cbn; auto.
  intros [ih ->]. exists ih. reflexivity.
Qed.

(** C7. Healpix 100 and 999 are requested.  Whether 999 is the one that is
    not available or 100 is, the assertion fails with the same message,
    the request list as a whole; the claim asks for a message that names
    the healpix that is not available. *)
Theorem assertion_message_is_whole_request :
  let parsed := request (Some ["100"; "999"]) false in
  let only_100 := Sim.mk_world [Sim.dark ++ "/100/100"] [] [] [] in
  let only_999 := Sim.mk_world [Sim.dark ++ "/999/999"] [] [] [] in
  fst (run [] parsed (Sim.start only_100))
  = Raise (mk_exc "AssertionError" "Healpix ['100', '999'] not available")
  /\ fst (run [] parsed (Sim.start only_999))
     = Raise (mk_exc "AssertionError" "Healpix ['100', '999'] not available").
Proof. vm_compute. split; reflexivity. Qed.

(** C8. At every point of the loop of line 114, that is after the
    iterations of any prefix [pre] of the selected healpix, the lists
    [issuehealpixels] and [errortypes] have the same length and, index by
    index, hold the healpix and the exception class of the calls that
    raised so far, oldest first; the rest of the loop goes on from there;
    and the summary run on these lists raises no IndexError and prints each
    healpix with its own class. *)
Theorem failure_lists_stay_paired {W : Type} {os : OS W} (args : namespace)
    (dataroot outroot : string) (pre post : list string) (st : state W) :
  let body := process args dataroot outroot (leaked (pre ++ post)) in
  let r := for_each pre body (mk_failures [] []) st in
  let evs := added st (snd r) in
  exists f,
    fst r = Ok f
    /\ trace (snd r) = (trace st ++ evs)%list
    /\ List.length (issuehealpixels f) = List.length (errortypes f)
    /\ combine (issuehealpixels f) (errortypes f) = captured evs
    /\ process_all args dataroot outroot (leaked (pre ++ post)) (pre ++ post) st
       = for_each post body f (snd r)
    /\ forall st' : state W,
         summary f st'
         = (Ok tt, mk_state (world st') (trace st' ++ summary_events (captured evs))).
Proof.
  intros body r evs.
  assert (Hr : exists evs', r = (Ok (add_failures (mk_failures [] []) (captured evs')),
                                 mk_state (world (snd r)) (trace st ++ evs'))).
  { subst r body. destruct pre as [|x pre].
    - exists []. destruct st. cbn. unfold ret. now rewrite app_nil_r.
    - rewrite leaked_last by discriminate. rewrite process_all_steps.
      eexists. reflexivity. }
  destruct Hr as (evs' & Hr).
  assert (Hevs : evs = evs').
  { subst evs. apply added_spec. rewrite Hr. reflexivity. }
  exists (add_failures (mk_failures [] []) (captured evs')).
  rewrite Hevs. split; [now rewrite Hr|]. split; [now rewrite Hr|].
  split; [unfold add_failures; cbn; now rewrite !length_map|].
  split; [unfold add_failures; cbn; apply combine_fst_snd|].
  split.
  - unfold process_all. rewrite for_each_app. unfold bind.
    fold body. fold r. rewrite Hr. reflexivity.
  - intros st'. apply summary_of_captured.
Qed.

(** C9. Whatever the parsed command line holds for [--verbose], after lines
    68-69 [args.verbose] is true; so every iteration of the loop of line
    114 starts by printing its two paths, and every call of the finder in a
    run gets [verbose = True]. *)
Theorem verbose_always_on (parsed : namespace) :
  args_verbose (apply_debug parsed) = true
  /\ (forall argv ns,
        Argparse.parse_args argv = Some (Argparse.Parsed ns) ->
        args_verbose (apply_debug ns) = true)
  /\ (forall (W : Type) (os : OS W) (dataroot outroot inputhealpix healpix : string)
             (f : failures) (st : state W),
        exists rest,
          added st (snd (process (apply_debug parsed) dataroot outroot
                           (Some inputhealpix) healpix f st))
          = EvPrint (PyStr.join " "
                       ["Coadd file: ";
                        coaddfile (apply_debug parsed) dataroot inputhealpix healpix])
            :: EvPrint (PyStr.join " "
                          ["BAL file: ";
                           balfile (apply_debug parsed) outroot inputhealpix healpix])
            :: rest)
  /\ (forall (W : Type) (os : OS W) (env0 : environ) (st : state W),
        Forall (fun ev =>
                  match ev with
                  | EvCall _ c _ => c_verbose c = true
                  | _ => True
                  end)
               (added st (snd (run env0 parsed st)))).
Proof.
  split; [reflexivity|]. split; [reflexivity|]. split.
  - intros W os dr outr ih h f st.
    destruct (step_starts_with_prints (apply_debug parsed) dr outr ih h (world st))
      as (rest & Hs & _).
    exists rest. apply added_spec. rewrite process_step. cbn [snd trace].
    rewrite Hs. reflexivity.
  - intros W os env0 st. eapply Forall_impl; [|apply run_events].
    intros [ | | |h c r]; cbn; auto. intros [ih ->]. reflexivity.
Qed.

Lemma verbose_always_on_witness :
  Argparse.parse_args ["-o"; "out"] = Some (Argparse.Parsed (request None false))
  /\ args_verbose (request None false) = false
  /\ args_verbose (apply_debug (request None false)) = true.
Proof.
  split; [reflexivity|]. split; [reflexivity|].
  apply (proj1 (proj2 (verbose_always_on (request None false))) ["-o"; "out"]).
  reflexivity.
Defined.

(** C10. [--clobber] is declared with [type = bool], so its argument string
    [s] becomes [bool(s)], which is true exactly when [s] is not empty:
    on a parsed command line the flag is the [bool] of the last string
    given to [-c/--clobber], and false when the option is absent;
    [--clobber False] and [--clobber 0] give true, an empty argument and
    no option give false.  The debug override leaves the flag as parsed,
    and in the loop of line 114 the flag is used twice: the finder is
    called exactly when the output file is absent or the flag is set, and
    the call gets the flag as [overwrite]. *)
Theorem clobber_is_bool_of_string :
  (forall s, PyStr.bool_of_str s = true <-> s <> EmptyString)
  /\ (forall argv ns,
        Argparse.parse_args argv = Some (Argparse.Parsed ns) ->
        args_clobber ns
        = last (map PyStr.bool_of_str (clobber_values argv)) false)
  /\ (option_map (fun r => match r with
                           | Argparse.Parsed ns => Some (args_clobber ns)
                           | _ => None
                           end)
        (Argparse.parse_args ["-o"; "out"; "--clobber"; "False"])
      = Some (Some true)
      /\ option_map (fun r => match r with
                              | Argparse.Parsed ns => Some (args_clobber ns)
                              | _ => None
                              end)
           (Argparse.parse_args ["-o"; "out"; "--clobber"; "0"])
         = Some (Some true)
      /\ option_map (fun r => match r with
                              | Argparse.Parsed ns => Some (args_clobber ns)
                              | _ => None
                              end)
           (Argparse.parse_args ["-o"; "out"; "--clobber"; EmptyString])
         = Some (Some false)
      /\ option_map (fun r => match r with
                              | Argparse.Parsed ns => Some (args_clobber ns)
                              | _ => None
                              end)
           (Argparse.parse_args ["-o"; "out"])
         = Some (Some false))
  /\ (forall parsed, args_clobber (apply_debug parsed) = args_clobber parsed)
  /\ (forall (W : Type) (os : OS W) (args : namespace)
             (dataroot outroot inputhealpix h : string) (f : failures)
             (st : state W),
        calls_for h
          (added st (snd (process args dataroot outroot (Some inputhealpix) h f st)))
        = (if negb (os_path_isfile (world st)
                      (balfile args outroot inputhealpix h))
              || args_clobber args
           then [(the_call args dataroot outroot inputhealpix h,
                  snd (desibalfinder (world st)
                         (the_call args dataroot outroot inputhealpix h)))]
           else [])
        /\ c_overwrite (the_call args dataroot outroot inputhealpix h)
           = args_clobber args)
  /\ (forall (W : Type) (os : OS W) (env0 : environ) (parsed : namespace)
             (st : state W),
        Forall (fun ev =>
                  match ev with
                  | EvCall _ c _ => c_overwrite c = args_clobber parsed
                  | _ => True
                  end)
               (added st (snd (run env0 parsed st)))).
Proof.
  split.
  { intros s. unfold PyStr.bool_of_str. rewrite negb_true_iff.
    apply String.eqb_neq. }
  split.
  { intros argv ns. unfold Argparse.parse_args.
    destruct (forallb Argparse.supported argv); [|discriminate].
    intros H. inversion H as [Hs]. apply scan_clobber in Hs.
    rewrite Hs. apply last_wins_last. }
  split; [repeat split|]. split; [reflexivity|]. split.
  - intros W os args dr outr ih h f st. split; [|reflexivity].
    rewrite (added_spec st _ (snd (step args dr outr ih h (world st))))
      by now rewrite process_step.
    apply calls_for_step.
  - intros W os env0 parsed st. eapply Forall_impl; [|apply run_events].
    intros [ | | |h c r]; cbn; auto. intros [ih ->]. reflexivity.
Qed.

Lemma clobber_is_bool_of_string_witness :
  Argparse.parse_args ["-o"; "out"; "--clobber"; "False"]
  = Some (Argparse.Parsed (request None true))
  /\ "False" <> EmptyString
  /\ PyStr.bool_of_str "False" = true
  /\ args_clobber (request None true)
     = last (map PyStr.bool_of_str
               (clobber_values ["-o"; "out"; "--clobber"; "False"])) false.
Proof.
  split; [reflexivity|]. split; [discriminate|]. split.
  - apply (proj2 (proj1 clobber_is_bool_of_string "False")). discriminate.
  - apply (proj1 (proj2 clobber_is_bool_of_string)
             ["-o"; "out"; "--clobber"; "False"]).
    reflexivity.
Defined.

(** * Part IV: further properties of the script *)

(** ** Healpix names and paths (lines 92, 104, 116-119) *)

Lemma rfind_from_absent (c : ascii) (s : string) (i last : Z) :
  PyStr.contains_char c s = false -> PyStr.rfind_from c s i last = last.
Proof.
  revert i last; induction s as [|a s IH]; intros i last; cbn; [reflexivity|].
  destruct (Ascii.eqb a c); cbn; [discriminate|]. apply IH.
Qed.

Lemma rfind_from_after (c : ascii) (p b : string) :
  PyStr.contains_char c b = false ->
  forall i last : Z,
    PyStr.rfind_from c (p ++ String c b) i last
    = (i + Z.of_nat (String.length p))%Z.
Proof.
  intros Hb. induction p as [|a p IH]; intros i last.
  - cbn. rewrite Ascii.eqb_refl, rfind_from_absent by assumption. lia.
  - cbn [String.append PyStr.rfind_from String.length]. rewrite IH. lia.
Qed.

Lemma drop_past (p : string) (c : ascii) (b : string) :
  PyStr.drop (String.length p + 1) (p ++ String c b) = b.
Proof. induction p as [|a p IH]; cbn; [reflexivity|exact IH]. Qed.

Lemma split_at_last (c : ascii) (s : string) :
  PyStr.contains_char c s = true ->
  exists p b, s = (p ++ String c b)%string /\ PyStr.contains_char c b = false.
Proof.
  induction s as [|a s IH]; cbn [PyStr.contains_char]; [intros H; discriminate H|].
  destruct (PyStr.contains_char c s) eqn:Hs.
  - intros _. destruct (IH eq_refl) as (p & b & -> & Hb).
    exists (String a p), b. split; [reflexivity|exact Hb].
  - rewrite orb_false_r. intros Ha. apply Ascii.eqb_eq in Ha. subst a.
    exists EmptyString, s. split; [reflexivity|exact Hs].
Qed.

Lemma healpix_of_dir_after (p b : string) :
  PyStr.contains_char "/" b = false ->
  healpix_of_dir (p ++ String "/" b) = b.
Proof.
  intros Hb. unfold healpix_of_dir, PyStr.rfind.
  rewrite rfind_from_after by assumption.
  replace (Z.to_nat (0 + Z.of_nat (String.length p) + 1))
    with (String.length p + 1) by lia.
  apply drop_past.
Qed.

(** X1. The healpix name read off a directory path is the part of the path
    after its last separator: it holds no separator, whatever [glob]
    returned; a path without separator is kept whole; and any other path is
    some directory, a separator and the name. *)
Theorem healpix_of_dir_slash_free (healpixdir : string) :
  slash_free (healpix_of_dir healpixdir) = true
  /\ if slash_free healpixdir
     then healpix_of_dir healpixdir = healpixdir
     else exists dir, healpixdir = (dir ++ "/" ++ healpix_of_dir healpixdir)%string.
Proof.
  unfold slash_free.
  destruct (PyStr.contains_char "/" healpixdir) eqn:Hc; cbn [negb].
  - destruct (split_at_last _ _ Hc) as (p & b & -> & Hb).
    rewrite (healpix_of_dir_after p b Hb), Hb.
    split; [reflexivity|]. exists p. reflexivity.
  - assert (Hd : healpix_of_dir healpixdir = healpixdir).
    { unfold healpix_of_dir, PyStr.rfind.
      rewrite rfind_from_absent by assumption.
      destruct healpixdir; reflexivity. }
    rewrite Hd, Hc. split; reflexivity.
Qed.

(** X2. The healpix name of a path is its last component: for a name
    without separator, [dir/name] gives [name], whatever the directory (so
    the bucket directory is dropped). *)
Theorem healpix_of_dir_last_component (dir name : string) :
  slash_free name = true ->
  healpix_of_dir (dir ++ "/" ++ name) = name.
Proof.
  unfold slash_free, healpix_of_dir, PyStr.rfind. intros H.
  apply negb_true_iff in H. cbn [String.append].
  rewrite rfind_from_after by assumption.
  replace (Z.to_nat (0 + Z.of_nat (String.length dir) + 1))
    with (String.length dir + 1) by lia.
  apply drop_past.
Qed.

Lemma healpix_of_dir_last_component_witness :
  slash_free "10016" = true
  /\ healpix_of_dir ("/redux/everest/healpix/main/dark/100" ++ "/" ++ "10016")
     = "10016".
Proof.
  split; [reflexivity|].
  apply (healpix_of_dir_last_component "/redux/everest/healpix/main/dark/100").
  reflexivity.
Defined.

Lemma contains_take (c : ascii) (n : nat) (s : string) :
  PyStr.contains_char c s = false ->
  PyStr.contains_char c (PyStr.take n s) = false.
Proof.
  revert s; induction n as [|n IH]; intros [|a s]; cbn; try reflexivity.
  intros H. apply orb_false_iff in H. destruct H as [Ha Hs].
  now rewrite Ha, IH.
Qed.

Lemma endswith_slash_contains (s : string) :
  PyStr.endswith "/" s = true -> PyStr.contains_char "/" s = true.
Proof.
  induction s as [|a s IH]; [discriminate|].
  destruct s as [|b s].
  - unfold PyStr.endswith.
    cbn [String.length Nat.leb Nat.sub PyStr.drop andb String.eqb
         PyStr.contains_char].
    destruct (Ascii.eqb a "/"); [reflexivity|intros H; discriminate H].
  - rewrite endswith_slash_cons by discriminate. intros H.
    cbn [PyStr.contains_char] in *. rewrite (IH H). apply orb_true_r.
Qed.

Lemma startswith_slash_contains (s : string) :
  PyStr.startswith "/" s = true -> PyStr.contains_char "/" s = true.
Proof.
  unfold PyStr.startswith.
  destruct s as [|a s]; cbn [String.prefix PyStr.contains_char];
    [intros H; discriminate H|].
  destruct (ascii_dec "/" a) as [<-|];
    [intros _; reflexivity|intros H; discriminate H].
Qed.

Lemma slash_free_inside (s : string) :
  slash_free s = true ->
  PyStr.startswith "/" s = false /\ PyStr.endswith "/" s = false.
Proof.
  unfold slash_free. intros H. apply negb_true_iff in H. split.
  - destruct (PyStr.startswith "/" s) eqn:E; [|reflexivity].
    apply startswith_slash_contains in E. congruence.
  - destruct (PyStr.endswith "/" s) eqn:E; [|reflexivity].
    apply endswith_slash_contains in E. congruence.
Qed.

(** X3. The directory of a healpix mirrors the release layout: for a name
    that is not empty and holds no separator it is the root, a separator
    unless the root is empty or ends with one, the first three characters
    of the name, a separator, and the name. *)
Theorem healpixdir_layout (root name : string) :
  name <> EmptyString ->
  slash_free name = true ->
  os_path_join root [PyStr.take 3 name; name]
  = (with_sep root ++ PyStr.take 3 name ++ "/" ++ name)%string.
Proof.
  intros Hne Hfree. unfold os_path_join. cbn [fold_left].
  assert (Htake : slash_free (PyStr.take 3 name) = true).
  { unfold slash_free in *. apply negb_true_iff. apply contains_take.
    now apply negb_true_iff. }
  destruct (slash_free_inside _ Hfree) as [Hs _].
  destruct (slash_free_inside _ Htake) as [Hts Hte].
  rewrite (join_step_head root (PyStr.take 3 name)) by assumption.
  apply join_step_plain; try assumption.
  destruct name; [congruence|discriminate].
Qed.

Lemma healpixdir_layout_witness :
  "10016" <> EmptyString
  /\ slash_free "10016" = true
  /\ os_path_join "out/everest/healpix/main/dark" [PyStr.take 3 "10016"; "10016"]
     = "out/everest/healpix/main/dark/100/10016".
Proof.
  split; [discriminate|]. split; [reflexivity|].
  rewrite (healpixdir_layout "out/everest/healpix/main/dark" "10016");
    [reflexivity|discriminate|reflexivity].
Defined.

(** ** The catalog name (line 116) *)

Lemma replace_absent (old new s : string) :
  occurs old s = false -> PyStr.replace_go old new 0 s = s.
Proof.
  induction s as [|c s IH]; [reflexivity|].
  cbn [occurs PyStr.replace_go]. intros H.
  apply orb_false_iff in H. destruct H as [Hp Ho].
  rewrite Hp, IH by assumption. reflexivity.
Qed.

Lemma replace_go_skip (old new t s : string) :
  PyStr.replace_go old new (String.length t) (t ++ s)
  = PyStr.replace_go old new 0 s.
Proof.
  induction t as [|c t IH]; cbn [String.length String.append].
  - now destruct s.
  - cbn [PyStr.replace_go]. exact IH.
Qed.

Lemma prefix_append (a b : string) : String.prefix a (a ++ b) = true.
Proof.
  induction a as [|c a IH]; cbn; [now destruct b|].
  destruct (ascii_dec c c); [exact IH|congruence].
Qed.

(** [replace] on a string that starts with [old]. *)
Lemma replace_at_head (old new s : string) :
  old <> EmptyString ->
  PyStr.replace old new (old ++ s) = (new ++ PyStr.replace old new s)%string.
Proof.
  intros Hne. unfold PyStr.replace.
  destruct old as [|c o]; [congruence|].
  change (String c o ++ s)%string with (String c (o ++ s)).
  cbn [PyStr.replace_go].
  change (String c (o ++ s)) with (String c o ++ s)%string.
  rewrite prefix_append. cbn [String.length Nat.sub].
  rewrite Nat.sub_0_r, replace_go_skip. reflexivity.
Qed.

(** X4. The catalog name is the input name with its head [coadd-] turned
    into [baltable-], as long as [coadd-] occurs nowhere in what follows
    the head (survey, moon, healpix and extension); every other occurrence
    would be replaced too. *)
Theorem balfilename_swaps_head (args : namespace) (healpix : string) :
  let rest :=
    (args_survey args ++ "-" ++ args_moon args ++ "-" ++ healpix ++ ".fits")%string in
  occurs "coadd-" rest = false ->
  coaddfilename args healpix = ("coadd-" ++ rest)%string
  /\ balfilename args healpix = ("baltable-" ++ rest)%string.
Proof.
  intros rest Hno. split; [reflexivity|].
  unfold balfilename.
  change (coaddfilename args healpix) with ("coadd-" ++ rest)%string.
  rewrite replace_at_head by discriminate.
  unfold PyStr.replace. now rewrite replace_absent.
Qed.

Lemma balfilename_swaps_head_witness :
  occurs "coadd-" "sv1-bright-2048.fits" = false
  /\ balfilename (mk_namespace None "fuji" "sv1" "bright" "out" false true) "2048"
     = "baltable-sv1-bright-2048.fits".
Proof.
  split; [reflexivity|].
  apply (balfilename_swaps_head
           (mk_namespace None "fuji" "sv1" "bright" "out" false true) "2048").
  reflexivity.
Defined.

(** ** The loop of line 114: which healpix are called *)

Section LoopCalls.

Context {W : Type} {os : OS W}.

Variables (args : namespace) (dataroot outroot inputhealpix : string).

Local Abbreviation one := (step args dataroot outroot inputhealpix).
Local Abbreviation many := (steps args dataroot outroot inputhealpix).
Local Abbreviation lines := (path_prints args dataroot outroot inputhealpix).

Lemma called_app (a b : list event) : called (a ++ b) = (called a ++ called b)%list.
Proof. apply flat_map_app. Qed.

Lemma called_path_prints (h : string) : called (lines h) = [].
Proof. unfold path_prints. now destruct (args_verbose args). Qed.

(** An iteration calls the finder for its own healpix, or not at all. *)
Lemma step_called (h : string) (w : W) :
  called (snd (one h w))
  = if negb (os_path_isfile w (balfile args outroot inputhealpix h))
       || args_clobber args
    then [h] else [].
Proof.
  unfold step.
  destruct (negb _ || _); [destruct (desibalfinder _ _) as [w' [e|]]|];
    cbn [snd]; rewrite ?called_app, ?called_path_prints; reflexivity.
Qed.

Lemma steps_called_masked (l : list string) (w : W) :
  exists keep,
    List.length keep = List.length l
    /\ called (snd (many l w)) = masked l keep.
Proof.
  revert w; induction l as [|h l IH]; intros w; cbn [steps].
  - exists []. split; reflexivity.
  - pose proof (step_called h w) as Hs. destruct (one h w) as [w1 evs1].
    destruct (IH w1) as (keep & Hlen & Hk). destruct (many l w1) as [w2 evs2].
    cbn [snd] in *. rewrite called_app, Hs, Hk.
    exists ((negb (os_path_isfile w (balfile args outroot inputhealpix h))
             || args_clobber args) :: keep).
    split; [cbn; now rewrite Hlen|].
    unfold masked. cbn [combine filter snd].
    now destruct (negb _ || _).
Qed.

Lemma steps_called_all (l : list string) (w : W) :
  args_clobber args = true -> called (snd (many l w)) = l.
Proof.
  intros Hc. revert w; induction l as [|h l IH]; intros w; cbn [steps].
  - reflexivity.
  - pose proof (step_called h w) as Hs. destruct (one h w) as [w1 evs1].
    specialize (IH w1). destruct (many l w1) as [w2 evs2]. cbn [snd] in *.
    rewrite called_app, Hs, IH, Hc, orb_true_r. reflexivity.
Qed.

Lemma steps_skip_all (l : list string) (w : W) :
  args_clobber args = false ->
  (forall h, In h l ->
     os_path_isfile w (balfile args outroot inputhealpix h) = true) ->
  many l w = (w, flat_map lines l).
Proof.
  intros Hc. induction l as [|h l IH]; intros Hall; cbn [steps flat_map].
  - reflexivity.
  - unfold step at 1. rewrite Hc, (Hall h) by now left. cbn [negb orb].
    rewrite IH by (intros h' Hh'; apply Hall; now right). reflexivity.
Qed.

End LoopCalls.

(** X5. With clobber false and every catalog the loop looks for already
    there, the loop calls nothing: it only prints the paths, leaves the
    world as it was and records no failure, and the summary is the header
    alone. *)
Theorem nothing_called_when_catalogs_exist {W : Type} {os : OS W}
    (args : namespace) (dataroot outroot : string) (l : list string)
    (st : state W) :
  args_clobber args = false ->
  (forall h, In h l ->
     os_path_isfile (world st)
       (balfile args outroot (last l EmptyString) h) = true) ->
  let r := process_all args dataroot outroot (leaked l) l st in
  fst r = Ok (mk_failures [] [])
  /\ world (snd r) = world st
  /\ added st (snd r)
     = flat_map (path_prints args dataroot outroot (last l EmptyString)) l
  /\ called (added st (snd r)) = []
  /\ added (snd r) (snd (summary (mk_failures [] []) (snd r)))
     = [EvPrint "Healpix with errors and error types: "].
Proof.
  intros Hc Hall r. subst r. rewrite process_all_leaked.
  rewrite (steps_skip_all args dataroot outroot (last l EmptyString) l (world st) Hc Hall).
  cbn [fst snd world trace].
  assert (Hcap : forall l', captured (flat_map
                   (path_prints args dataroot outroot (last l EmptyString)) l') = []).
  { induction l' as [|h l' IH]; [reflexivity|].
    cbn [flat_map]. now rewrite captured_app, captured_path_prints, IH. }
  assert (Hcalled : forall l', called (flat_map
                      (path_prints args dataroot outroot (last l EmptyString)) l') = []).
  { induction l' as [|h l' IH]; [reflexivity|].
    cbn [flat_map]. now rewrite called_app, called_path_prints, IH. }
  rewrite Hcap. split; [reflexivity|]. split; [reflexivity|].
  split; [now apply added_spec|].
  split; [erewrite added_spec by reflexivity; apply Hcalled|].
  apply added_spec. reflexivity.
Qed.

Lemma nothing_called_when_catalogs_exist_witness :
  let w := Sim.mk_world [] ["out/100/100/baltable-main-dark-100.fits"] [] [] in
  let args := request None false in
  let r := process_all args Sim.dark "out" (leaked ["100"]) ["100"] (Sim.start w) in
  args_clobber args = false
  /\ os_path_isfile w (balfile args "out" "100" "100") = true
  /\ called (added (Sim.start w) (snd r)) = [].
Proof.
  intros w args r. split; [reflexivity|]. split; [reflexivity|].
  refine (proj1 (proj2 (proj2 (proj2
            (nothing_called_when_catalogs_exist args Sim.dark "out" ["100"]
               (Sim.start w) _ _))))).
  - reflexivity.
  - intros h [<-|[]]. reflexivity.
Defined.

(** X6. With clobber set, the loop calls the finder for every selected
    healpix, once per occurrence and in the order of the selection,
    whatever exists and whatever the calls raise. *)
Theorem clobber_calls_every_healpix {W : Type} {os : OS W} (args : namespace)
    (dataroot outroot : string) (l : list string) (st : state W) :
  args_clobber args = true ->
  called (added st (snd (process_all args dataroot outroot (leaked l) l st))) = l.
Proof.
  intros Hc. rewrite process_all_leaked. cbn [snd].
  erewrite added_spec by reflexivity. now apply steps_called_all.
Qed.

Lemma clobber_calls_every_healpix_witness :
  let w := Sim.mk_world [] ["out/200/200/baltable-main-dark-100.fits"] []
             [(Sim.dark ++ "/200/200/coadd-main-dark-100.fits",
               mk_exc "ValueError" "no spectra")] in
  args_clobber (request None true) = true
  /\ called (added (Sim.start w)
               (snd (process_all (request None true) Sim.dark "out"
                       (leaked ["100"; "200"]) ["100"; "200"] (Sim.start w))))
     = ["100"; "200"].
Proof.
  intros w. split; [reflexivity|].
  apply (clobber_calls_every_healpix (request None true) Sim.dark "out"
           ["100"; "200"] (Sim.start w)).
  reflexivity.
Defined.

(** X7. Whatever the flags and the world, the finder is only called for
    selected healpix, in the order of the selection and at most once per
    occurrence: the healpix called are the selection with the skipped
    iterations left out. *)
Theorem calls_follow_selection {W : Type} {os : OS W} (args : namespace)
    (dataroot outroot : string) (l : list string) (st : state W) :
  exists keep,
    List.length keep = List.length l
    /\ called (added st (snd (process_all args dataroot outroot (leaked l) l st)))
       = masked l keep.
Proof.
  rewrite process_all_leaked. cbn [snd].
  erewrite added_spec by reflexivity. apply steps_called_masked.
Qed.

(** ** [pmmkdir] and the loop of line 103 *)

(** X8. [pmmkdir] leaves an existing directory alone (no [os.makedirs], no
    output).  Otherwise it asks [os.makedirs] once, for that directory: it
    returns when the call returns; a PermissionError never leaves it, the
    message is printed and the process exits with status 1; any other
    exception leaves it as raised. *)
Theorem pmmkdir_contract {W : Type} {os : OS W} (direct : string) (st : state W) :
  let r := pmmkdir direct st in
  (os_path_isdir (world st) direct = true -> r = (Ok tt, st))
  /\ (os_path_isdir (world st) direct = false ->
      asked_dirs (added st (snd r)) = [direct]
      /\ world (snd r) = fst (os_makedirs (world st) direct)
      /\ match snd (os_makedirs (world st) direct) with
         | None => fst r = Ok tt /\ printed (added st (snd r)) = []
         | Some e =>
             if String.eqb (exc_class e) "PermissionError"
             then fst r = Exit 1
                  /\ printed (added st (snd r))
                     = [("Error: no permission to make directory  " ++ direct)%string]
             else fst r = Raise e /\ printed (added st (snd r)) = []
         end)
  /\ (forall e, fst r = Raise e -> exc_class e <> "PermissionError").
Proof.
  intros r. subst r. rewrite pmmkdir_eq.
  destruct (os_path_isdir (world st) direct) eqn:Ed.
  - split; [reflexivity|]. split; [discriminate|]. intros e H. discriminate H.
  - split; [discriminate|].
    destruct (os_makedirs (world st) direct) as [w' [e|]]; cbn [fst snd].
    + destruct (String.eqb (exc_class e) "PermissionError") eqn:E; cbn [fst snd].
      * split.
        { intros _. erewrite added_spec by reflexivity.
          repeat split; reflexivity. }
        intros e' H. discriminate H.
      * split.
        { intros _. erewrite added_spec by reflexivity.
          repeat split; reflexivity. }
        intros e' H. injection H as <-. now apply String.eqb_neq.
    + split.
      { intros _. erewrite added_spec by reflexivity. repeat split; reflexivity. }
      intros e' H. discriminate H.
Qed.

Lemma pmmkdir_contract_witness :
  let w := Sim.mk_world ["out"] [] ["/proc/out"] [] in
  pmmkdir "out" (Sim.start w) = (Ok tt, Sim.start w)
  /\ fst (pmmkdir "/proc/out" (Sim.start w)) = Exit 1.
Proof.
  intros w. split.
  - apply (proj1 (pmmkdir_contract "out" (Sim.start w))). reflexivity.
  - assert (Hd : os_path_isdir (world (Sim.start w)) "/proc/out" = false)
      by reflexivity.
    destruct (proj1 (proj2 (pmmkdir_contract "/proc/out" (Sim.start w))) Hd)
      as (_ & _ & H).
    exact (proj1 H).
Defined.

Lemma asked_dirs_app (a b : list event) :
  asked_dirs (a ++ b) = (asked_dirs a ++ asked_dirs b)%list.
Proof. apply flat_map_app. Qed.

Lemma masked_cons_true {A} (x : A) (l : list A) (keep : list bool) :
  masked (x :: l) (true :: keep) = x :: masked l keep.
Proof. reflexivity. Qed.

Lemma masked_cons_false {A} (x : A) (l : list A) (keep : list bool) :
  masked (x :: l) (false :: keep) = masked l keep.
Proof. reflexivity. Qed.

Lemma masked_none {A} (l : list A) :
  masked l (repeat false (List.length l)) = [].
Proof. induction l as [|x l IH]; [reflexivity|exact IH]. Qed.

Lemma pmmkdir_asked {W : Type} {os : OS W} (direct : string) (st : state W) :
  asked_dirs (added st (snd (pmmkdir direct st)))
  = if os_path_isdir (world st) direct then [] else [direct].
Proof.
  rewrite pmmkdir_eq. destruct (os_path_isdir (world st) direct).
  - cbn [snd]. unfold added. now rewrite skipn_all.
  - destruct (os_makedirs (world st) direct) as [w' [e|]];
      [destruct (String.eqb (exc_class e) "PermissionError")|];
      cbn [snd]; erewrite added_spec by reflexivity; reflexivity.
Qed.

Lemma pmmkdir_extends {W : Type} {os : OS W} (direct : string) (st : state W) :
  trace (snd (pmmkdir direct st))
  = (trace st ++ added st (snd (pmmkdir direct st)))%list.
Proof.
  rewrite pmmkdir_eq. destruct (os_path_isdir (world st) direct).
  - cbn [snd]. unfold added. now rewrite skipn_all, app_nil_r.
  - destruct (os_makedirs (world st) direct) as [w' [e|]];
      [destruct (String.eqb (exc_class e) "PermissionError")|];
      cbn [snd]; erewrite added_spec by reflexivity; reflexivity.
Qed.

Lemma scaffold_loop {W : Type} {os : OS W} (outroot : string) (l : list string) :
  forall (v : option string) (st : state W),
    let r := for_each l
               (fun (inputhealpix : string) (_ : option string) =>
                  bind (pmmkdir (os_path_join outroot
                                   [PyStr.take 3 inputhealpix; inputhealpix]))
                       (fun _ => ret (Some inputhealpix))) v st in
    exists keep,
      List.length keep = List.length l
      /\ trace (snd r) = (trace st ++ added st (snd r))%list
      /\ asked_dirs (added st (snd r))
         = map (healpixdir outroot) (masked l keep).
Proof.
  induction l as [|u l IH]; intros v st r.
  - exists []. subst r. cbn [for_each]. unfold ret, added. cbn [snd].
    rewrite skipn_all, app_nil_r. repeat split; reflexivity.
  - pose proof (pmmkdir_asked (healpixdir outroot u) st) as Ha.
    pose proof (pmmkdir_extends (healpixdir outroot u) st) as He.
    assert (Hr : r = match pmmkdir (healpixdir outroot u) st with
                     | (Ok _, st1) =>
                         for_each l
                           (fun (inputhealpix : string) (_ : option string) =>
                              bind (pmmkdir (os_path_join outroot
                                      [PyStr.take 3 inputhealpix; inputhealpix]))
                                   (fun _ => ret (Some inputhealpix)))
                           (Some u) st1
                     | (Raise e, st1) => (Raise e, st1)
                     | (Exit n, st1) => (Exit n, st1)
                     end).
    { subst r. cbn [for_each]. unfold bind at 1 2, healpixdir.
      destruct (pmmkdir _ st) as [[[]|e|n] st1]; reflexivity. }
    clearbody r. subst r.
    destruct (pmmkdir (healpixdir outroot u) st) as [[[]|e|n] st1];
      cbn [snd] in *.
    + destruct (IH (Some u) st1) as (keep & Hlen & Ht & Hk).
      set (st2 := snd (for_each l _ (Some u) st1)) in *.
      assert (Hadd : added st st2 = (added st st1 ++ added st1 st2)%list).
      { apply added_spec. rewrite Ht, He at 1. now rewrite app_assoc. }
      exists (negb (os_path_isdir (world st) (healpixdir outroot u)) :: keep).
      split; [cbn; now rewrite Hlen|]. split.
      * rewrite Hadd, app_assoc, <- He. exact Ht.
      * rewrite Hadd, asked_dirs_app, Ha, Hk.
        destruct (os_path_isdir (world st) (healpixdir outroot u)); reflexivity.
    + exists (negb (os_path_isdir (world st) (healpixdir outroot u))
              :: repeat false (List.length l)).
      split; [cbn; now rewrite repeat_length|]. split; [exact He|].
      rewrite Ha.
      destruct (os_path_isdir (world st) (healpixdir outroot u)); cbn [negb].
      * rewrite masked_cons_false, masked_none. reflexivity.
      * rewrite masked_cons_true, masked_none. reflexivity.
    + exists (negb (os_path_isdir (world st) (healpixdir outroot u))
              :: repeat false (List.length l)).
      split; [cbn; now rewrite repeat_length|]. split; [exact He|].
      rewrite Ha.
      destruct (os_path_isdir (world st) (healpixdir outroot u)); cbn [negb].
      * rewrite masked_cons_false, masked_none. reflexivity.
      * rewrite masked_cons_true, masked_none. reflexivity.
Qed.

(** X9. The loop of line 103 asks [os.makedirs] only for directories of
    selected healpix, each built from that healpix's own first three
    characters and name, in the order of the selection and at most once per
    occurrence; a loop that ends normally leaves [inputhealpix] bound to
    the last selected healpix. *)
Theorem scaffold_makes_own_directories {W : Type} {os : OS W}
    (outroot : string) (l : list string) (st : state W) :
  let r := scaffold outroot l st in
  (exists keep,
     List.length keep = List.length l
     /\ asked_dirs (added st (snd r))
        = map (healpixdir outroot) (masked l keep))
  /\ (forall ih, fst r = Ok ih -> ih = leaked l).
Proof.
  intros r. split.
  - destruct (scaffold_loop outroot l None st) as (keep & Hlen & _ & Hk).
    exists keep. split; assumption.
  - intros ih H. subst r. unfold scaffold in H.
    destruct (for_each l _ None st) as [o st'] eqn:E. cbn [fst] in H. subst o.
    exact (scaffold_value _ _ _ _ _ _ E).
Qed.

Lemma scaffold_makes_own_directories_witness :
  let r := scaffold "out" ["100"; "10016"] (Sim.start Sim.two_healpix) in
  fst r = Ok (Some "10016")
  /\ Some "10016" = leaked ["100"; "10016"]
  /\ asked_dirs (trace (snd r)) = ["out/100/100"; "out/100/10016"].
Proof.
  intros r. split; [reflexivity|]. split; [|reflexivity].
  apply (proj2 (scaffold_makes_own_directories "out" ["100"; "10016"]
                  (Sim.start Sim.two_healpix))).
  reflexivity.
Defined.

(** ** Whole runs: order, selection and early ends *)

Lemma setup_events_not_called (parsed : namespace) (evs : list event) :
  Forall (setup_event parsed) evs -> called evs = [].
Proof.
  induction 1 as [|ev evs Hev _ IH]; [reflexivity|].
  destruct ev; cbn in Hev; try contradiction; exact IH.
Qed.

(** X10. Once the finder has been called, no directory is made and nothing
    is listed any more: the events of a run split into a first part without
    any call of the finder and a second part without any [os.makedirs] and
    any [glob].  This orders the events that happen; it does not say which
    directories are made. *)
Theorem no_directory_after_first_call {W : Type} {os : OS W} (env0 : environ)
    (parsed : namespace) (st : state W) :
  exists before after,
    added st (snd (run env0 parsed st)) = (before ++ after)%list
    /\ called before = []
    /\ asked_dirs after = []
    /\ patterns after = [].
Proof.
  destruct (run_spec env0 parsed st) as (evs0 & Ht & [Hc Hp] & Hr).
  destruct (fst (setup env0 parsed st)) as [[[dr l] ih]|e|n].
  - destruct Hr as [_ Hr]. set (s := steps _ _ _ _ _ _) in Hr.
    exists evs0, (snd s ++ summary_events (captured (snd s)))%list.
    split; [apply added_spec; now rewrite Hr|].
    split; [now apply setup_events_not_called with parsed|].
    destruct (shape_no_dirs _ _ _ _ _
                (steps_shape (apply_debug parsed)
                   (the_dataroot (apply_debug parsed))
                   (compute_outroot (apply_debug parsed))
                   (last l EmptyString) l
                   (world (snd (setup env0 parsed st))))) as [Ha Hq].
    fold s in Ha, Hq.
    destruct (summary_events_quiet (captured (snd s))) as (Sa & Sp & _).
    rewrite asked_dirs_app, patterns_app, Ha, Hq, Sa, Sp. split; reflexivity.
  - exists evs0, []. rewrite app_nil_r.
    split; [apply added_spec; now rewrite Hr|].
    split; [now apply setup_events_not_called with parsed|split; reflexivity].
  - exists evs0, []. rewrite app_nil_r.
    split; [apply added_spec; now rewrite Hr|].
    split; [now apply setup_events_not_called with parsed|split; reflexivity].
Qed.

(** X11. When the output root is there or could be made and a requested
    healpix is not among the names [glob] gave, the run ends with the
    AssertionError of line 98 right after [glob]: no directory of a healpix
    was asked for and the finder was not called. *)
Theorem missing_request_aborts {W : Type} {os : OS W} (env0 : environ)
    (parsed : namespace) (l : list string) (u : string) (st : state W) :
  let args := apply_debug parsed in
  let made := pmmkdir (compute_outroot args) st in
  let pattern := (the_dataroot args ++ "/*/*")%string in
  let found := glob (world (snd made)) pattern in
  args_healpix parsed = Some l ->
  In u l ->
  fst made = Ok tt ->
  ~ In u (map healpix_of_dir found) ->
  run env0 parsed st
  = (Raise (mk_exc "AssertionError" (not_available l)),
     mk_state (world (snd made)) (trace (snd made) ++ [EvGlob pattern found])).
Proof.
  intros args made pattern found Hl Hu Hmade Hmiss.
  unfold run, bind at 1 2 3 4. rewrite compute_dataroot_startup.
  fold args. fold made. destruct made as [o st1] eqn:Em. cbn [fst snd] in *.
  subst o. unfold discover at 1. cbn [world trace]. fold pattern. fold found.
  pose proof (select_cases args (map healpix_of_dir found)
                (mk_state (world st1) (trace st1 ++ [EvGlob pattern found]))) as Hs.
  change (args_healpix args) with (args_healpix parsed) in Hs. rewrite Hl in Hs.
  destruct Hs as [[Hall _]|(u' & _ & _ & ->)]; [|reflexivity].
  rewrite Forall_forall in Hall. elim Hmiss. now apply Hall.
Qed.

Lemma missing_request_aborts_witness :
  let parsed := request (Some ["100"; "999"]) false in
  fst (run [] parsed (Sim.start Sim.two_healpix))
  = Raise (mk_exc "AssertionError" (not_available ["100"; "999"]))
  /\ asked_dirs (trace (snd (run [] parsed (Sim.start Sim.two_healpix))))
     = ["out/everest/healpix/main/dark"].
Proof.
  intros parsed.
  assert (H : run [] parsed (Sim.start Sim.two_healpix)
              = (Raise (mk_exc "AssertionError" (not_available ["100"; "999"])),
                 mk_state
                   (world (snd (pmmkdir (compute_outroot (apply_debug parsed))
                                  (Sim.start Sim.two_healpix))))
                   (trace (snd (pmmkdir (compute_outroot (apply_debug parsed))
                                  (Sim.start Sim.two_healpix)))
                    ++ [EvGlob (the_dataroot (apply_debug parsed) ++ "/*/*")
                          (glob (world (snd (pmmkdir
                                   (compute_outroot (apply_debug parsed))
                                   (Sim.start Sim.two_healpix))))
                             (the_dataroot (apply_debug parsed) ++ "/*/*"))]))).
  { apply (missing_request_aborts [] parsed ["100"; "999"] "999"
             (Sim.start Sim.two_healpix)).
    - reflexivity.
    - right. left. reflexivity.
    - reflexivity.
    - vm_compute. intros [H|[H|[]]]; discriminate H. }
  rewrite H. split; reflexivity.
Defined.

(** X12. [--healpix] given without any value selects nothing: the run
    makes or finds the output root, calls [glob], makes no directory of a
    healpix, never calls the finder and, unless the output root could not
    be made, ends normally after printing the header of the summary. *)
Theorem empty_request_runs_nothing {W : Type} {os : OS W} (env0 : environ)
    (parsed : namespace) (st : state W) :
  let args := apply_debug parsed in
  let pattern := (the_dataroot args ++ "/*/*")%string in
  args_healpix parsed = Some [] ->
  run env0 parsed st
  = match pmmkdir (compute_outroot args) st with
    | (Ok _, st1) =>
        (Ok tt,
         mk_state (world st1)
           (trace st1
            ++ [EvGlob pattern (glob (world st1) pattern);
                EvPrint "Healpix with errors and error types: "]))
    | (Raise e, st1) => (Raise e, st1)
    | (Exit n, st1) => (Exit n, st1)
    end.
Proof.
  intros args pattern Hl.
  unfold run, bind at 1 2. rewrite compute_dataroot_startup. fold args.
  destruct (pmmkdir (compute_outroot args) st) as [[[]|e|n] st1];
    try reflexivity.
  unfold bind at 1, discover at 1. cbn [world trace]. fold pattern.
  unfold bind at 1, select at 1.
  change (args_healpix args) with (args_healpix parsed). rewrite Hl.
  cbn [for_each]. unfold bind at 1, ret at 1 2.
  unfold bind at 1, scaffold at 1. cbn [for_each]. unfold ret at 1.
  unfold bind at 1, process_all at 1. cbn [for_each]. unfold ret at 1.
  unfold summary, bind, print, emit. cbn [issuehealpixels List.length seq for_each].
  unfold ret. cbn [world trace]. now rewrite <- app_assoc.
Qed.

Lemma empty_request_runs_nothing_witness :
  Argparse.parse_args ["--healpix"; "-o"; "out"]
  = Some (Argparse.Parsed (request (Some []) false))
  /\ run [] (request (Some []) false) (Sim.start Sim.two_healpix)
     = (Ok tt,
        mk_state
          (Sim.mk_world [Sim.dark ++ "/100/100"; Sim.dark ++ "/200/200";
                         "out/everest/healpix/main/dark"] [] [] [])
          [EvMakedirs "out/everest/healpix/main/dark" None;
           EvGlob (Sim.dark ++ "/*/*")
             [Sim.dark ++ "/100/100"; Sim.dark ++ "/200/200"];
           EvPrint "Healpix with errors and error types: "]).
Proof.
  split; [reflexivity|].
  rewrite (empty_request_runs_nothing [] (request (Some []) false)
             (Sim.start Sim.two_healpix)); reflexivity.
Defined.

Lemma pmmkdir_ok_silent {W : Type} {os : OS W} (direct : string)
    (st st1 : state W) :
  pmmkdir direct st = (Ok tt, st1) ->
  exists evs, trace st1 = (trace st ++ evs)%list /\ Forall silent evs.
Proof.
  rewrite pmmkdir_eq. destruct (os_path_isdir (world st) direct).
  - intros H; injection H as <-. exists []. now rewrite app_nil_r.
  - destruct (os_makedirs (world st) direct) as [w' [e|]].
    + destruct (String.eqb (exc_class e) "PermissionError"); discriminate.
    + intros H; injection H as <-. eexists. split; [reflexivity|].
      repeat constructor.
Qed.

Lemma scaffold_ok_silent {W : Type} {os : OS W} (outroot : string)
    (l : list string) :
  forall (v r : option string) (st st1 : state W),
    for_each l
      (fun (inputhealpix : string) (_ : option string) =>
         bind (pmmkdir (os_path_join outroot
                          [PyStr.take 3 inputhealpix; inputhealpix]))
              (fun _ => ret (Some inputhealpix))) v st = (Ok r, st1) ->
    exists evs, trace st1 = (trace st ++ evs)%list /\ Forall silent evs.
Proof.
  induction l as [|u l IH]; intros v r st st1; cbn [for_each].
  - unfold ret. intros H; injection H as _ <-. exists [].
    now rewrite app_nil_r.
  - unfold bind at 1 2.
    destruct (pmmkdir _ st) as [[[]|e|n] st2] eqn:Ep; try discriminate.
    unfold ret at 1. intros H.
    destruct (pmmkdir_ok_silent _ _ _ Ep) as (e1 & T1 & S1).
    destruct (IH _ _ _ _ H) as (e2 & T2 & S2).
    exists (e1 ++ e2)%list. split; [now rewrite T2, T1, app_assoc|].
    now apply Forall_app.
Qed.

(** A setup that succeeds added only [os.makedirs] events around the one
    [glob], and without [--healpix] it selected the names of what [glob]
    found, in that order. *)
Lemma setup_ok_events {W : Type} {os : OS W} (env0 : environ)
    (parsed : namespace) (st st1 : state W) (dataroot : string)
    (l : list string) (ih : option string) :
  setup env0 parsed st = (Ok (dataroot, l, ih), st1) ->
  exists a found b,
    trace st1
    = (trace st ++ a
       ++ [EvGlob (the_dataroot (apply_debug parsed) ++ "/*/*") found] ++ b)%list
    /\ Forall silent a /\ Forall silent b
    /\ (args_healpix parsed = None -> l = map healpix_of_dir found).
Proof.
  unfold setup, bind at 1 2 3 4 5.
  rewrite compute_dataroot_startup.
  destruct (pmmkdir _ st) as [[[]|e|n] st2] eqn:Ep; try discriminate.
  unfold discover at 1.
  set (pattern := (the_dataroot (apply_debug parsed) ++ "/*/*")%string).
  set (found := glob (world st2) pattern).
  set (st3 := mk_state (world st2) (trace st2 ++ [EvGlob pattern found])).
  pose proof (select_cases (apply_debug parsed) (map healpix_of_dir found) st3)
    as Hsel.
  change (args_healpix (apply_debug parsed)) with (args_healpix parsed) in Hsel.
  destruct (select _ _ st3) as [[l'|e|n] st4] eqn:Esel; try discriminate.
  destruct (scaffold _ l' st4) as [[ih'|e|n] st5] eqn:Es; try discriminate.
  unfold ret. intros H; inversion H; subst.
  destruct (pmmkdir_ok_silent _ _ _ Ep) as (a & Ta & Sa).
  unfold scaffold in Es.
  destruct (scaffold_ok_silent _ _ _ _ _ _ Es) as (b & Tb & Sb).
  assert (H4 : st4 = st3 /\ (args_healpix parsed = None ->
                            l = map healpix_of_dir found)).
  { destruct (args_healpix parsed) as [l0|].
    - destruct Hsel as [[_ Hs]|(u & _ & _ & Hs)]; [|discriminate].
      split; [congruence|discriminate].
    - split; [congruence|]. intros _. congruence. }
  destruct H4 as [-> Hl].
  exists a, found, b. split.
  - rewrite Tb. subst st3. cbn [trace]. rewrite Ta, <- !app_assoc. reflexivity.
  - repeat split; assumption.
Qed.

Lemma silent_quiet (evs : list event) :
  Forall silent evs ->
  filter is_coadd_print evs = [] /\ printed evs = [] /\ patterns evs = [].
Proof.
  induction 1 as [|ev evs Hev _ (IHf & IHp & IHg)]; [repeat split|].
  destruct ev; cbn in Hev; try contradiction; cbn. repeat split; assumption.
Qed.

Lemma printed_app (a b : list event) :
  printed (a ++ b) = (printed a ++ printed b)%list.
Proof. apply flat_map_app. Qed.

(** X13. A run without [--healpix] that ends normally processed the
    directories [glob] returned, in the order [glob] returned them and
    with repeated names repeated: up to the loop nothing is printed and
    [glob] is called once, on the pattern below the input root; the loop
    prints one input path per returned directory, named after its last
    component; the summary of the failures of the loop follows. *)
Theorem default_selection_is_glob_order {W : Type} {os : OS W}
    (env0 : environ) (parsed : namespace) (st : state W) :
  let args := apply_debug parsed in
  args_healpix parsed = None ->
  fst (run env0 parsed st) = Ok tt ->
  exists found before loop,
    added st (snd (run env0 parsed st))
    = (before ++ loop ++ summary_events (captured loop))%list
    /\ patterns before = [(the_dataroot args ++ "/*/*")%string]
    /\ In (EvGlob (the_dataroot args ++ "/*/*") found) before
    /\ printed before = []
    /\ filter is_coadd_print loop
       = map (fun h =>
                EvPrint (PyStr.join " "
                  ["Coadd file: ";
                   coaddfile args (the_dataroot args)
                     (last (map healpix_of_dir found) EmptyString) h]))
           (map healpix_of_dir found).
Proof.
  intros args Hnone Hok.
  destruct (run_spec env0 parsed st) as (evs0 & Ht & _ & Hr).
  destruct (setup env0 parsed st) as [[[[dr l] ih]|e|n] st1] eqn:Es;
    cbn [fst snd] in *;
    [|rewrite Hr in Hok; discriminate Hok|rewrite Hr in Hok; discriminate Hok].
  destruct Hr as [_ Hr].
  destruct (setup_ok_events _ _ _ _ _ _ _ Es)
    as (a & found & b & Tr & Sa & Sb & Hl).
  specialize (Hl Hnone). subst l.
  assert (Hevs0 : evs0
                  = (a ++ [EvGlob (the_dataroot args ++ "/*/*") found] ++ b)%list).
  { apply app_inv_head with (trace st). rewrite <- Ht. exact Tr. }
  set (s := steps _ _ _ _ _ _) in Hr.
  exists found, evs0, (snd s).
  split; [apply added_spec; now rewrite Hr|].
  destruct (silent_quiet _ Sa) as (_ & Pa & Ga).
  destruct (silent_quiet _ Sb) as (_ & Pb & Gb).
  rewrite Hevs0. split.
  { rewrite !patterns_app, Ga, Gb. reflexivity. }
  split.
  { apply in_or_app. right. now left. }
  split.
  { rewrite !printed_app, Pa, Pb. reflexivity. }
  subst s. apply steps_coadd_prints. reflexivity.
Qed.

Lemma default_selection_is_glob_order_witness :
  let r := run [] (request None false) (Sim.start Sim.two_healpix) in
  args_healpix (request None false) = None
  /\ fst r = Ok tt
  /\ exists found before loop,
       added (Sim.start Sim.two_healpix) (snd r)
       = (before ++ loop ++ summary_events (captured loop))%list
       /\ patterns before
          = [(the_dataroot (apply_debug (request None false)) ++ "/*/*")%string]
       /\ In (EvGlob (the_dataroot (apply_debug (request None false)) ++ "/*/*")
                found) before
       /\ printed before = []
       /\ filter is_coadd_print loop
          = map (fun h =>
                   EvPrint (PyStr.join " "
                     ["Coadd file: ";
                      coaddfile (apply_debug (request None false))
                        (the_dataroot (apply_debug (request None false)))
                        (last (map healpix_of_dir found) EmptyString) h]))
              (map healpix_of_dir found).
Proof.
  intros r. split; [reflexivity|]. split; [vm_compute; reflexivity|].
  apply (default_selection_is_glob_order [] (request None false)
           (Sim.start Sim.two_healpix)).
  - reflexivity.
  - vm_compute. reflexivity.
Defined.

(** ** The required option (line 57) *)

Lemma value_of_snoc_other (d : Argparse.dest) (vs : list string)
    (acts : Argparse.actions) :
  Argparse.dest_eqb Argparse.d_outdir d = false ->
  Argparse.value_of Argparse.d_outdir (acts ++ [(d, vs)])%list
  = Argparse.value_of Argparse.d_outdir acts.
Proof.
  intros Hd. unfold Argparse.value_of. now rewrite values_of_snoc, Hd.
Qed.

Lemma value_of_flush (m : Argparse.mode) (acts : Argparse.actions) :
  Argparse.value_of Argparse.d_outdir (Argparse.flush m acts)
  = Argparse.value_of Argparse.d_outdir acts.
Proof.
  destruct m; cbn [Argparse.flush]; try reflexivity.
  now apply value_of_snoc_other.
Qed.

Lemma scan_needs_outdir (toks : list string) :
  forall (m : Argparse.mode) (acts : Argparse.actions) (extras : bool),
    (forall t, In t toks ->
       Argparse.classify t <> Argparse.TokO Argparse.d_outdir
       /\ Argparse.classify t <> Argparse.TokO Argparse.d_help) ->
    Argparse.value_of Argparse.d_outdir acts = None ->
    m <> Argparse.Expect Argparse.d_outdir ->
    Argparse.scan toks m acts extras = Argparse.ArgExit 2.
Proof.
  induction toks as [|t rest IH]; intros m acts extras Hall Hv Hm;
    cbn [Argparse.scan].
  - destruct m as [|d|vals]; try reflexivity;
      unfold Argparse.finish; now rewrite value_of_flush, Hv.
  - assert (Hrest : forall t', In t' rest ->
              Argparse.classify t' <> Argparse.TokO Argparse.d_outdir
              /\ Argparse.classify t' <> Argparse.TokO Argparse.d_help)
      by (intros t' Ht'; apply Hall; now right).
    destruct (Hall t (or_introl eq_refl)) as [Ho Hh].
    destruct (Argparse.classify t) as [d| |].
    + destruct m as [|d0|vals]; try reflexivity;
        destruct d; try congruence;
        apply IH; try assumption; try discriminate;
        now rewrite value_of_flush.
    + destruct m as [|d0|vals].
      * now apply IH.
      * apply IH; try assumption; [|discriminate].
        rewrite value_of_snoc_other; [assumption|].
        destruct d0; try reflexivity. congruence.
      * now apply IH.
    + reflexivity.
Qed.

(** X14. [--outdir] is required: on a command line that holds neither
    [-o/--outdir] nor [-h/--help], argparse writes its usage line and an
    error message on stderr and ends the process with status 2; none of the
    statements after line 66 runs, so the script itself prints nothing, makes
    no directory, lists nothing and calls nothing. *)
Theorem outdir_is_required (env0 : environ) (argv : list string) :
  forallb Argparse.supported argv = true ->
  (forall t, In t argv ->
     Argparse.classify t <> Argparse.TokO Argparse.d_outdir
     /\ Argparse.classify t <> Argparse.TokO Argparse.d_help) ->
  Argparse.parse_args argv = Some (Argparse.ArgExit 2)
  /\ forall (W : Type) (os : OS W) (st : state W),
       option_map (fun p : option Argparse.notice * M W unit => (fst p, snd p st))
         (script env0 argv)
       = Some (Some Argparse.UsageAndErrorOnStderr, (Exit 2, st)).
Proof.
  intros Hs Hall.
  assert (Hp : Argparse.parse_args argv = Some (Argparse.ArgExit 2)).
  { unfold Argparse.parse_args. rewrite Hs. f_equal.
    apply scan_needs_outdir; [assumption|reflexivity|discriminate]. }
  split; [exact Hp|]. intros W os st. unfold script. rewrite Hp. reflexivity.
Qed.

Lemma outdir_is_required_witness :
  let argv := ["--healpix"; "100"; "-r"; "fuji"; "--clobber"; "1"] in
  Argparse.parse_args argv = Some (Argparse.ArgExit 2)
  /\ option_map (fun p : option Argparse.notice * M Sim.world unit =>
                   (fst p, snd p (Sim.start Sim.two_healpix)))
       (script [] argv)
     = Some (Some Argparse.UsageAndErrorOnStderr,
             (Exit 2, Sim.start Sim.two_healpix)).
Proof.
  intros argv.
  assert (H : forall t, In t argv ->
            Argparse.classify t <> Argparse.TokO Argparse.d_outdir
            /\ Argparse.classify t <> Argparse.TokO Argparse.d_help).
  { intros t Ht.
    repeat (destruct Ht as [<-|Ht]; [split; discriminate|]).
    destruct Ht. }
  destruct (outdir_is_required [] argv eq_refl H) as [Hp Hrun].
  split; [exact Hp|apply Hrun].
Defined.

(** ** The options that take one string (lines 48-58) *)

Section OneString.

Variable d : Argparse.dest.
Hypothesis d_one : Argparse.dest_eqb d Argparse.d_healpix = false.

Local Abbreviation coming := (to_come d).

Lemma value_of_snoc (d0 : Argparse.dest) (v : string) (acts : Argparse.actions) :
  Argparse.value_of d (acts ++ [(d0, [v])])%list
  = if Argparse.dest_eqb d d0 then Some v else Argparse.value_of d acts.
Proof.
  unfold Argparse.value_of. rewrite values_of_snoc.
  now destruct (Argparse.dest_eqb d d0).
Qed.

Lemma value_of_flush_one (m : Argparse.mode) (acts : Argparse.actions) :
  Argparse.value_of d (Argparse.flush m acts) = Argparse.value_of d acts.
Proof.
  destruct m; cbn [Argparse.flush]; try reflexivity.
  unfold Argparse.value_of. now rewrite values_of_snoc, d_one.
Qed.

Lemma is_opt_option (t : string) (d0 : Argparse.dest) :
  Argparse.classify t = Argparse.TokO d0 -> is_opt d t = Argparse.dest_eqb d d0.
Proof.
  unfold Argparse.classify, is_opt.
  destruct (Argparse.lookup t Argparse.option_strings) as [d1|].
  - intros H; injection H as ->. reflexivity.
  - destruct (_ && _); discriminate.
Qed.

Lemma is_opt_argument (t : string) :
  Argparse.classify t = Argparse.TokA -> is_opt d t = false.
Proof.
  unfold Argparse.classify, is_opt.
  destruct (Argparse.lookup t Argparse.option_strings); [discriminate|reflexivity].
Qed.

(** A successful scan ends in [finish] on actions whose last value for [d]
    is the last one on the command line. *)
Lemma scan_latest (toks : list string) :
  forall (m : Argparse.mode) (acts : Argparse.actions) (extras : bool)
         (ns : namespace),
    Argparse.scan toks m acts extras = Argparse.Parsed ns ->
    exists acts' extras',
      Argparse.finish acts' extras' = Argparse.Parsed ns
      /\ Argparse.value_of d acts'
         = latest (coming m toks) (Argparse.value_of d acts).
Proof.
  induction toks as [|t rest IH]; intros m acts extras ns; cbn [Argparse.scan].
  - destruct m as [|d0|vals]; try discriminate; intros H;
      eexists; eexists; (split; [exact H|]);
      rewrite value_of_flush_one; reflexivity.
  - destruct (Argparse.classify t) as [d0| |] eqn:Ec.
    + pose proof (is_opt_option t d0 Ec) as Ho.
      destruct m as [|d1|vals]; try discriminate;
        destruct d0; try discriminate; intros H;
        destruct (IH _ _ _ _ H) as (acts' & extras' & Hf & Hv);
        exists acts', extras'; (split; [exact Hf|]);
        rewrite Hv, value_of_flush_one; unfold to_come;
        cbn [opt_values]; rewrite Ho; try rewrite d_one; reflexivity.
    + pose proof (is_opt_argument t Ec) as Ho.
      destruct m as [|d1|vals]; intros H;
        destruct (IH _ _ _ _ H) as (acts' & extras' & Hf & Hv);
        exists acts', extras'; (split; [exact Hf|]); rewrite Hv;
        unfold to_come; cbn [opt_values]; rewrite Ho.
      * reflexivity.
      * rewrite value_of_snoc. now destruct (Argparse.dest_eqb d d1).
      * reflexivity.
    + discriminate.
Qed.

Lemma latest_last (vs : list string) (dflt : string) :
  match latest vs None with Some v => v | None => dflt end = last vs dflt.
Proof.
  unfold latest.
  assert (H : forall v, match fold_left (fun _ x => Some x) vs v with
                        | Some x => x
                        | None => dflt
                        end
                        = last vs (match v with Some x => x | None => dflt end)).
  { induction vs as [|x vs IH]; intros v; [reflexivity|].
    cbn [fold_left]. rewrite IH. destruct vs as [|y vs]; [reflexivity|].
    change (last (x :: y :: vs) match v with Some x0 => x0 | None => dflt end)
      with (last (y :: vs) match v with Some x0 => x0 | None => dflt end).
    apply last_cons_default. }
  apply H.
Qed.

Lemma parse_latest (argv : list string) (ns : namespace) :
  Argparse.parse_args argv = Some (Argparse.Parsed ns) ->
  exists acts extras,
    Argparse.finish acts extras = Argparse.Parsed ns
    /\ Argparse.value_of d acts = latest (opt_values d argv) None.
Proof.
  unfold Argparse.parse_args.
  destruct (forallb Argparse.supported argv); [|discriminate].
  intros H; injection H as H. exact (scan_latest _ _ _ _ _ H).
Qed.

End OneString.

Lemma finish_fields (acts : Argparse.actions) (extras : bool) (ns : namespace) :
  Argparse.finish acts extras = Argparse.Parsed ns ->
  args_release ns = Argparse.str_arg Argparse.d_release "everest" acts
  /\ args_survey ns = Argparse.str_arg Argparse.d_survey "main" acts
  /\ args_moon ns = Argparse.str_arg Argparse.d_moon "dark" acts
  /\ Argparse.value_of Argparse.d_outdir acts = Some (args_outdir ns).
Proof.
  unfold Argparse.finish.
  destruct (Argparse.value_of Argparse.d_outdir acts) as [o|]; [|discriminate].
  destruct extras; [discriminate|]. intros H; injection H as <-.
  repeat split.
Qed.

(** X15. On a parsed command line each of [--release], [--survey],
    [--moon] and [--outdir] holds the string that followed its last
    occurrence (short or long form); an absent [--release], [--survey] or
    [--moon] holds its declared default (everest, main, dark), and
    [--outdir] is never absent. *)
Theorem last_occurrence_wins (argv : list string) (ns : namespace) :
  Argparse.parse_args argv = Some (Argparse.Parsed ns) ->
  args_release ns = last (opt_values Argparse.d_release argv) "everest"
  /\ args_survey ns = last (opt_values Argparse.d_survey argv) "main"
  /\ args_moon ns = last (opt_values Argparse.d_moon argv) "dark"
  /\ opt_values Argparse.d_outdir argv <> []
  /\ args_outdir ns = last (opt_values Argparse.d_outdir argv) EmptyString.
Proof.
  intros H.
  destruct (parse_latest Argparse.d_release eq_refl argv ns H)
    as (a1 & e1 & F1 & V1).
  destruct (parse_latest Argparse.d_survey eq_refl argv ns H)
    as (a2 & e2 & F2 & V2).
  destruct (parse_latest Argparse.d_moon eq_refl argv ns H)
    as (a3 & e3 & F3 & V3).
  destruct (parse_latest Argparse.d_outdir eq_refl argv ns H)
    as (a4 & e4 & F4 & V4).
  destruct (finish_fields _ _ _ F1) as (R & _ & _ & _).
  destruct (finish_fields _ _ _ F2) as (_ & S & _ & _).
  destruct (finish_fields _ _ _ F3) as (_ & _ & Mo & _).
  destruct (finish_fields _ _ _ F4) as (_ & _ & _ & O).
  unfold Argparse.str_arg in *. rewrite V1 in R. rewrite V2 in S.
  rewrite V3 in Mo. rewrite V4 in O.
  split; [rewrite R; apply latest_last|].
  split; [rewrite S; apply latest_last|].
  split; [rewrite Mo; apply latest_last|].
  split.
  - intros Hnil. rewrite Hnil in O. discriminate O.
  - rewrite <- (latest_last (opt_values Argparse.d_outdir argv) EmptyString).
    now rewrite O.
Qed.

Lemma last_occurrence_wins_witness :
  let argv := ["-r"; "fuji"; "-o"; "a"; "--release"; "guadalupe"; "--outdir"; "b"] in
  Argparse.parse_args argv
  = Some (Argparse.Parsed
            (mk_namespace None "guadalupe" "main" "dark" "b" false false))
  /\ last (opt_values Argparse.d_release argv) "everest" = "guadalupe"
  /\ last (opt_values Argparse.d_outdir argv) EmptyString = "b".
Proof.
  intros argv.
  assert (H : Argparse.parse_args argv
              = Some (Argparse.Parsed
                        (mk_namespace None "guadalupe" "main" "dark" "b" false false)))
    by reflexivity.
  destruct (last_occurrence_wins argv _ H) as (R & _ & _ & _ & O).
  split; [exact H|]. split; [symmetry; exact R|symmetry; exact O].
Defined.
